(** * semi_yolov5_STAC: the pseudo-label container and the train driver

    A shallow embedding of [src/semi_yolov5_STAC.py].  The class
    [semiDataset] is embedded whole.  The body of [train] is embedded
    fragment by fragment: each fragment is a function of the local state
    with which control reaches its first line, and the Python exceptions it
    can raise are values of [exn].  What happens before a fragment is not
    part of it: the theorems say what the lines of the fragment do from
    any state of that shape.

    The program runs under Python 3 (it imports [torch.cuda.amp]): [/] on
    two integers is true division and yields a float, ordering comparisons
    between a number and a list raise [TypeError].  Floats that the driver
    only compares or passes on are idealised as rationals; the tensor
    arithmetic of the pseudo-labelling pass is kept abstract in the class
    [TensorScalar], so that what is proved there holds for any
    interpretation of its operations, float32 included. *)

From Stdlib Require Import ZArith QArith List String Bool Lia Permutation.
From Stdlib Require Import Qround Lqa.
Import ListNotations.

Local Open Scope string_scope.
Local Open Scope list_scope.
Local Open Scope Z_scope.

(* ================================================================== *)
(** * Python run-time values and exceptions *)
(* ================================================================== *)

(** One argument of a [%]-formatted message. *)
Inductive fmt_arg : Type :=
| FInt (z : Z)
| FFloat (q : Q)
| FStr (s : string).

(** The value of [fmt % (a1, ..., an)]: the format string and the tuple it
    is applied to. *)
Record message : Type := Message { fmt : string; fmt_args : list fmt_arg }.

Inductive exn : Type :=
| AssertionError (m : message)
| TypeError (s : string)
| NameError (name : string)
| IndexError (s : string)
| AttributeError (s : string)
| ValueError (s : string)
| ZeroDivisionError (s : string).

Inductive result (A : Type) : Type :=
| Ok (a : A)
| Err (e : exn).

Arguments Ok {A} a.
Arguments Err {A} e.

Definition bind {A B : Type} (r : result A) (k : A -> result B) : result B :=
  match r with
  | Ok a => k a
  | Err e => Err e
  end.

Notation "x <- r ;; k" := (bind r (fun x => k))
  (at level 61, r at next level, right associativity).
Notation "r ;;; k" := (bind r (fun _ => k))
  (at level 61, right associativity).

(** [assert cond, msg]: the message expression is evaluated only when the
    condition is false, and an exception raised while evaluating it
    replaces the [AssertionError]. *)
Definition py_assert (cond : bool) (msg : result message) : result unit :=
  if cond then Ok tt else (m <- msg ;; Err (AssertionError m)).

(** Python numbers: [int] and [float]. *)
Inductive pynum : Type :=
| PInt (z : Z)
| PFloat (q : Q).

Inductive pyval : Type :=
| VNum (n : pynum)
| VList (l : list pynum).

Definition num_Q (n : pynum) : Q :=
  match n with
  | PInt z => inject_Z z
  | PFloat q => q
  end.

(** [a / b] on numbers: true division, the result is always a float. *)
Definition py_truediv (a b : pynum) : result pynum :=
  if Qeq_bool (num_Q b) 0
  then Err (ZeroDivisionError "division by zero")
  else Ok (PFloat (num_Q a / num_Q b)%Q).

(** The integers [start, start+1, ..., stop-1]. *)
Definition int_range (start stop : Z) : list Z :=
  map (fun k => start + Z.of_nat k) (seq 0 (Z.to_nat (stop - start))).

(** [range(start, stop)]: both arguments must be integers. *)
Definition py_range (start stop : pynum) : result (list Z) :=
  match start, stop with
  | PInt a, PInt b => Ok (int_range a b)
  | _, _ => Err (TypeError "'float' object cannot be interpreted as an integer")
  end.

Fixpoint nums_leb (l1 l2 : list pynum) : bool :=
  match l1, l2 with
  | [], _ => true
  | _ :: _, [] => false
  | a :: t1, b :: t2 =>
      if Qeq_bool (num_Q a) (num_Q b) then nums_leb t1 t2
      else Qle_bool (num_Q a) (num_Q b)
  end.

(** [a <= b]: defined between two numbers and between two lists; a number
    against a list raises [TypeError]. *)
Definition py_le (a b : pyval) : result bool :=
  match a, b with
  | VNum x, VNum y => Ok (Qle_bool (num_Q x) (num_Q y))
  | VList x, VList y => Ok (nums_leb x y)
  | VNum _, VList _ =>
      Err (TypeError "'<=' not supported between instances of 'int' and 'list'")
  | VList _, VNum _ =>
      Err (TypeError "'<=' not supported between instances of 'list' and 'int'")
  end.

(** [v.round()]: neither [int], [float] nor [list] has an attribute
    [round]. *)
Definition py_call_round (v : pyval) : result pyval :=
  match v with
  | VNum (PInt _) => Err (AttributeError "'int' object has no attribute 'round'")
  | VNum (PFloat _) => Err (AttributeError "'float' object has no attribute 'round'")
  | VList _ => Err (AttributeError "'list' object has no attribute 'round'")
  end.

(** [l[i]] on a Python list: a negative index counts from the end. *)
Definition py_getitem {A : Type} (l : list A) (i : Z) : result A :=
  let n := Z.of_nat (List.length l) in
  let j := if i <? 0 then n + i else i in
  if (0 <=? j) && (j <? n)
  then match nth_error l (Z.to_nat j) with
       | Some a => Ok a
       | None => Err (IndexError "list index out of range")
       end
  else Err (IndexError "list index out of range").

(* ================================================================== *)
(** * class semiDataset (lines 45-56) *)
(* ================================================================== *)

Section SemiDataset.
Context {I T P S : Type}.

(** The four attributes set by [__init__]. *)
Record semiDataset : Type := MkSemiDataset {
  imgs : list I;
  target : list T;
  path : list P;
  size : option S
}.

(** [__init__(self, imgs, target, path)]: stores its arguments, sets
    [size] to [None]; no check is made. *)
Definition semiDataset_init (imgs0 : list I) (target0 : list T) (path0 : list P)
  : semiDataset :=
  {| imgs := imgs0; target := target0; path := path0; size := None |}.

(** [__len__] *)
Definition semiDataset_len (d : semiDataset) : Z := Z.of_nat (List.length (imgs d)).

(** [__getitem__]: the three subscripts are evaluated left to right. *)
Definition semiDataset_getitem (d : semiDataset) (index : Z)
  : result (I * T * P * option S) :=
  im <- py_getitem (imgs d) index ;;
  t <- py_getitem (target d) index ;;
  p <- py_getitem (path d) index ;;
  Ok (im, t, p, size d).
End SemiDataset.

Arguments semiDataset : clear implicits.

(* ================================================================== *)
(** * train: configuration (lines 80-84) *)
(* ================================================================== *)

(** The dataset descriptor read from [opt.data]; [nc] is an integer, so
    [int(data_dict['nc'])] is [dd_nc]. *)
Record data_dict : Type := MkDataDict {
  dd_nc : Z;
  dd_names : list string;
  dd_train : string;
  dd_val : string
}.

(** Line 82. *)
Definition resolve_nc (single_cls : bool) (d : data_dict) : Z :=
  if single_cls then 1 else dd_nc d.

(** Line 83. *)
Definition resolve_names (single_cls : bool) (d : data_dict) : list string :=
  if single_cls && negb (Z.of_nat (List.length (dd_names d)) =? 1)
  then ["item"]
  else dd_names d.

Definition names_message (names : list string) (nc : Z) (data : string) : message :=
  Message "%g names found for nc=%g dataset in %s"
          [FInt (Z.of_nat (List.length names)); FInt nc; FStr data].

(** Lines 82-84: the resolved class count and names, or the failed
    assertion. *)
Definition configure (single_cls : bool) (data : string) (d : data_dict)
  : result (Z * list string) :=
  let nc := resolve_nc single_cls d in
  let names := resolve_names single_cls d in
  py_assert (Z.of_nat (List.length names) =? nc) (Ok (names_message names nc data)) ;;;
  Ok (nc, names).

(* ================================================================== *)
(** * train: optimizer parameter groups (lines 114-121) *)
(* ================================================================== *)

(** An [nn.Parameter] object, by identity. *)
Definition param : Type := nat.

(** The value of a module attribute. *)
Inductive attr : Type :=
| AParameter (p : param)
| ANone
| ATensor.

Inductive module_class : Type :=
| Conv2d
| Linear
| BatchNorm1d
| LayerNorm
| GroupNorm
| MultiheadAttention
| OtherClass (name : string).

(** A module as the loop sees it.  An [nn.BatchNorm2d] always has the
    attributes [weight] and [bias]; both are [None] when it was built with
    [affine=False].  Any other module is its class and its attributes. *)
Inductive module : Type :=
| BatchNorm2d (weight bias : option param)
| OtherModule (c : module_class) (attrs : list (string * attr)).

(** [Some p] when [hasattr(v, name) and isinstance(v.name, nn.Parameter)]. *)
Definition get_parameter (attrs : list (string * attr)) (name : string)
  : option param :=
  match find (fun b => String.eqb (fst b) name) attrs with
  | Some (_, AParameter p) => Some p
  | _ => None
  end.

Definition module_bias (v : module) : option param :=
  match v with
  | BatchNorm2d _ b => b
  | OtherModule _ attrs => get_parameter attrs "bias"
  end.

Record groups : Type := MkGroups {
  pg0 : list (option param);
  pg1 : list param;
  pg2 : list param
}.

(** The body of the loop of line 115 for one module [v]. *)
Definition partition_step (g : groups) (v : module) : groups :=
  let g1 :=
    match module_bias v with
    | Some b => {| pg0 := pg0 g; pg1 := pg1 g; pg2 := pg2 g ++ [b] |}
    | None => g
    end in
  match v with
  | BatchNorm2d w _ => {| pg0 := pg0 g1 ++ [w]; pg1 := pg1 g1; pg2 := pg2 g1 |}
  | OtherModule _ attrs =>
      match get_parameter attrs "weight" with
      | Some w => {| pg0 := pg0 g1; pg1 := pg1 g1 ++ [w]; pg2 := pg2 g1 |}
      | None => g1
      end
  end.

(** Lines 114-121 over [model.named_modules()]. *)
Definition param_groups (named_modules : list module) : groups :=
  fold_left partition_step named_modules {| pg0 := []; pg1 := []; pg2 := [] |}.

Definition some_list {A : Type} (o : option A) : list A :=
  match o with
  | Some a => [a]
  | None => []
  end.

(** The parameters held by the three groups. *)
Definition group_params (g : groups) : list param :=
  flat_map some_list (pg0 g) ++ pg1 g ++ pg2 g.

(** The attribute [weight] of a module when it is a Parameter. *)
Definition module_weight (v : module) : option param :=
  match v with
  | BatchNorm2d w _ => w
  | OtherModule _ attrs => get_parameter attrs "weight"
  end.

(** Every Parameter registered on a module, under whatever name. *)
Definition module_parameters (v : module) : list param :=
  match v with
  | BatchNorm2d w b => some_list w ++ some_list b
  | OtherModule _ attrs =>
      flat_map (fun b => match snd b with AParameter p => [p] | _ => [] end) attrs
  end.

(** [model.parameters()] as a set. *)
Definition model_parameters (named_modules : list module) : list param :=
  flat_map module_parameters named_modules.

Definition is_normalization (v : module) : bool :=
  match v with
  | BatchNorm2d _ _ => true
  | OtherModule BatchNorm1d _ | OtherModule LayerNorm _ | OtherModule GroupNorm _ => true
  | OtherModule _ _ => false
  end.

(** The partition invariant in the words of the specification. *)
Definition is_bias (mods : list module) (p : param) : Prop :=
  exists v, In v mods /\ module_bias v = Some p.

Definition is_normalization_weight (mods : list module) (p : param) : Prop :=
  exists v, In v mods /\ is_normalization v = true /\ module_weight v = Some p.

Definition is_other_weight (mods : list module) (p : param) : Prop :=
  exists v, In v mods /\ is_normalization v = false /\ module_weight v = Some p.

Definition only_in_group0 (g : groups) (p : param) : Prop :=
  In (Some p) (pg0 g) /\ ~ In p (pg1 g) /\ ~ In p (pg2 g).

Definition only_in_group1 (g : groups) (p : param) : Prop :=
  ~ In (Some p) (pg0 g) /\ In p (pg1 g) /\ ~ In p (pg2 g).

Definition only_in_group2 (g : groups) (p : param) : Prop :=
  ~ In (Some p) (pg0 g) /\ ~ In p (pg1 g) /\ In p (pg2 g).

Definition strict_three_way_cover (mods : list module) : Prop :=
  let g := param_groups mods in
  (forall p, is_bias mods p -> only_in_group2 g p) /\
  (forall p, is_normalization_weight mods p -> only_in_group0 g p) /\
  (forall p, is_other_weight mods p -> only_in_group1 g p) /\
  NoDup (group_params g) /\
  (forall p, In p (group_params g) <-> In p (model_parameters mods)).

(** What one module adds to each group. *)
Definition adds_to_pg0 (v : module) : list (option param) :=
  match v with
  | BatchNorm2d w _ => [w]
  | OtherModule _ _ => []
  end.

Definition adds_to_pg1 (v : module) : list param :=
  match v with
  | BatchNorm2d _ _ => []
  | OtherModule _ attrs => some_list (get_parameter attrs "weight")
  end.

Definition adds_to_pg2 (v : module) : list param := some_list (module_bias v).

(** The Parameters stored under [weight] and [bias], module by module. *)
Definition weight_bias_slots (mods : list module) : list param :=
  flat_map (fun v => some_list (module_weight v) ++ some_list (module_bias v)) mods.

(** A transformer block beside a convolution: the attention layer keeps its
    input projection under [in_proj_weight] and [in_proj_bias], the
    [LayerNorm] has a [weight], and the last [Linear] shares the weight of
    the first. *)
Definition attention_model : list module :=
  [ OtherModule Conv2d [("weight", AParameter 0%nat); ("bias", ANone)];
    BatchNorm2d (Some 1%nat) (Some 2%nat);
    OtherModule MultiheadAttention
      [("in_proj_weight", AParameter 3%nat); ("in_proj_bias", AParameter 4%nat)];
    OtherModule LayerNorm [("weight", AParameter 5%nat); ("bias", AParameter 6%nat)];
    OtherModule Linear [("weight", AParameter 7%nat); ("bias", AParameter 8%nat)];
    OtherModule Linear [("weight", AParameter 7%nat); ("bias", AParameter 9%nat)] ].

(* ================================================================== *)
(** * train: resume (lines 144-168) *)
(* ================================================================== *)

(** Name resolution in a scope given as the list of its bindings. *)
Definition lookup_name (scope : list (string * fmt_arg)) (name : string)
  : result fmt_arg :=
  match find (fun b => String.eqb (fst b) name) scope with
  | Some b => Ok (snd b)
  | None => Err (NameError name)
  end.

(** The printable names bound when line 165 runs: the locals [weights],
    [epochs], [batch_size], [total_batch_size], [rank] of line 60, [nc] of
    line 82, [nbs] and [accumulate] of lines 109-110 and [start_epoch] of
    line 163.  Neither [train] nor the module binds a name [weight]. *)
Record train_locals : Type := MkLocals {
  loc_weights : string;
  loc_epochs : Z;
  loc_batch_size : Z;
  loc_total_batch_size : Z;
  loc_rank : Z;
  loc_nc : Z;
  loc_nbs : Z;
  loc_accumulate : Z
}.

Definition scope_at_resume (l : train_locals) (start_epoch : Z)
  : list (string * fmt_arg) :=
  [ ("epochs", FInt (loc_epochs l));
    ("batch_size", FInt (loc_batch_size l));
    ("total_batch_size", FInt (loc_total_batch_size l));
    ("weights", FStr (loc_weights l));
    ("rank", FInt (loc_rank l));
    ("nc", FInt (loc_nc l));
    ("nbs", FInt (loc_nbs l));
    ("accumulate", FInt (loc_accumulate l));
    ("start_epoch", FInt start_epoch) ].

(** The message expression of line 165,
    ['%s training to %g epochs is finished, nothing to resume.' % (weight, epochs)]. *)
Definition resume_message (scope : list (string * fmt_arg)) : result message :=
  a <- lookup_name scope "weight" ;;
  b <- lookup_name scope "epochs" ;;
  Ok (Message "%s training to %g epochs is finished, nothing to resume." [a; b]).

Section Resume.
Context {O E : Type}.

(** The fields of the checkpoint read by the resume block; [O] is an
    optimizer state, [E] the weights of an EMA model. *)
Record checkpoint : Type := MkCheckpoint {
  ck_epoch : Z;
  ck_best_fitness : Q;
  ck_optimizer : option O;
  ck_ema : option E;
  ck_updates : Z;
  ck_training_results : option string
}.

(** What the resume block reads and updates: the optimizer, the EMA helper
    ([None] on the ranks that have none) with its update counter, the text
    of [results.txt], and the three locals. *)
Record resume_state : Type := MkResumeState {
  rs_optimizer : O;
  rs_ema : option (E * Z);
  rs_results_file : option string;
  rs_start_epoch : Z;
  rs_best_fitness : Q;
  rs_epochs : Z
}.

(** Lines 144-168.  [ck] is the checkpoint loaded at line 91 and is read
    only when [pretrained]. *)
Definition resume (pretrained opt_resume : bool) (l : train_locals)
  (ck : checkpoint) (optimizer : O) (ema : option (E * Z))
  (results_file : option string) : result resume_state :=
  let epochs := loc_epochs l in
  if pretrained then
    let '(optimizer1, best_fitness) :=
      match ck_optimizer ck with
      | Some o => (o, ck_best_fitness ck)
      | None => (optimizer, 0%Q)
      end in
    let ema1 :=
      match ema, ck_ema ck with
      | Some _, Some e => Some (e, ck_updates ck)
      | _, _ => ema
      end in
    let results1 :=
      match ck_training_results ck with
      | Some t => Some t
      | None => results_file
      end in
    let start_epoch := ck_epoch ck + 1 in
    (if opt_resume
     then py_assert (0 <? start_epoch) (resume_message (scope_at_resume l start_epoch))
     else Ok tt) ;;;
    let epochs1 := if epochs <? start_epoch then epochs + ck_epoch ck else epochs in
    Ok {| rs_optimizer := optimizer1; rs_ema := ema1; rs_results_file := results1;
          rs_start_epoch := start_epoch; rs_best_fitness := best_fitness;
          rs_epochs := epochs1 |}
  else
    Ok {| rs_optimizer := optimizer; rs_ema := ema; rs_results_file := results_file;
          rs_start_epoch := 0; rs_best_fitness := 0%Q; rs_epochs := epochs |}.
End Resume.

Arguments checkpoint : clear implicits.
Arguments resume_state : clear implicits.

(* ================================================================== *)
(** * train: dataset-level validation (lines 199-203) *)
(* ================================================================== *)

(** One row of a label array: the class index, then the box. *)
Record label_row : Type := MkLabelRow {
  l_cls : Z;
  l_box : Q * Q * Q * Q
}.

(** [np.concatenate(arrays, 0)] of a list of arrays of rows. *)
Definition np_concatenate {A : Type} (arrays : list (list A)) : result (list A) :=
  match arrays with
  | [] => Err (ValueError "need at least one array to concatenate")
  | _ :: _ => Ok (List.concat arrays)
  end.

(** [a.max()] of a one-dimensional array. *)
Definition np_max (a : list Z) : result Z :=
  match a with
  | [] => Err (ValueError "zero-size array to reduction operation maximum which has no identity")
  | c :: cs => Ok (fold_left Z.max cs c)
  end.

(** Line 199: [np.concatenate(dataset.labels, 0)[:, 0].max()]. *)
Definition max_label_class (labels : list (list label_row)) : result Z :=
  rows <- np_concatenate labels ;;
  np_max (map l_cls rows).

Definition label_message (mlc nc : Z) (data : string) : message :=
  Message "Label class %g exceeds nc=%g in %s. Possible class labels are 0-%g"
          [FInt mlc; FInt nc; FStr data; FInt (nc - 1)].

(** Lines 199-203: the maximum label class, or the exception raised. *)
Definition check_label_classes (labels : list (list label_row)) (nc : Z)
  (data : string) : result Z :=
  mlc <- max_label_class labels ;;
  py_assert (mlc <? nc) (Ok (label_message mlc nc data)) ;;;
  Ok mlc.

(* ================================================================== *)
(** * train: the burn-in loop header (lines 248-251) *)
(* ================================================================== *)

(** Line 248: [burnin_epochs = epochs / 2]. *)
Definition burnin_epochs (epochs : Z) : result pynum :=
  py_truediv (PInt epochs) (PInt 2).

(** Line 251: the epoch indices [range(start_epoch, burnin_epochs)] gives
    the loop, or the exception raised when the header is evaluated. *)
Definition burnin_epoch_indices (start_epoch epochs : Z) : result (list Z) :=
  stop <- burnin_epochs epochs ;;
  py_range (PInt start_epoch) stop.

(* ================================================================== *)
(** * train: warmup (lines 266-274) *)
(* ================================================================== *)

(** The hyperparameters the warmup block reads. *)
Record hyp : Type := MkHyp {
  warmup_bias_lr : Q;
  warmup_momentum : Q;
  momentum : Q
}.

(** One entry of [optimizer.param_groups]; [pg_momentum] is [None] when the
    group has no key ['momentum']. *)
Record param_group : Type := MkParamGroup {
  pg_lr : Q;
  pg_initial_lr : Q;
  pg_momentum : option Q
}.

(** [np.interp(x, [x0, x1], [f0, f1])] with [x0 < x1]. *)
Definition np_interp2 (x x0 x1 f0 f1 : Q) : Q :=
  if Qle_bool x x0 then f0
  else if Qle_bool x1 x then f1
  else (f0 + (x - x0) * (f1 - f0) / (x1 - x0))%Q.

(** [max(1, x)]: the first argument is kept unless the second is larger. *)
Definition py_max1 (x : Q) : pynum :=
  if Qle_bool x 1 then PInt 1 else PFloat x.

(** Lines 272-274 for the group [x] at position [j]. *)
Definition warmup_group (h : hyp) (lf_epoch : Q) (ni nw : Z) (j : nat)
  (x : param_group) : param_group :=
  {| pg_lr := np_interp2 (inject_Z ni) 0 (inject_Z nw)
                (if Nat.eqb j 2 then warmup_bias_lr h else 0%Q)
                (pg_initial_lr x * lf_epoch)%Q;
     pg_initial_lr := pg_initial_lr x;
     pg_momentum :=
       match pg_momentum x with
       | Some _ => Some (np_interp2 (inject_Z ni) 0 (inject_Z nw)
                           (warmup_momentum h) (momentum h))
       | None => None
       end |}.

Fixpoint warmup_groups (h : hyp) (lf_epoch : Q) (ni nw : Z) (j : nat)
  (xs : list param_group) : list param_group :=
  match xs with
  | [] => []
  | x :: rest => warmup_group h lf_epoch ni nw j x :: warmup_groups h lf_epoch ni nw (S j) rest
  end.

(** Lines 267-274 for the batch with global iteration count [ni]; [lf] is
    the schedule function, [accumulate] and [param_groups] the values on
    entry.  Returns the new [accumulate] and parameter groups. *)
Definition warmup (h : hyp) (lf : Z -> Q) (nbs total_batch_size nw epoch ni : Z)
  (accumulate : pynum) (param_groups0 : list param_group)
  : result (pynum * list param_group) :=
  inside <- py_le (VNum (PInt ni)) (VList [PInt 0; PInt nw]) ;;
  if (inside : bool) then
    ratio <- py_truediv (PInt nbs) (PInt total_batch_size) ;;
    fp <- py_call_round (VList [PInt 1; ratio]) ;;
    match fp with
    | VList [f0; f1] =>
        Ok (py_max1 (np_interp2 (inject_Z ni) 0 (inject_Z nw) (num_Q f0) (num_Q f1)),
            warmup_groups h (lf epoch) ni nw 0 param_groups0)
    | _ => Err (ValueError "object of too small depth for desired array")
    end
  else Ok (accumulate, param_groups0).

(* ================================================================== *)
(** * train: the pseudo-labelling pass (lines 350-376) *)
(* ================================================================== *)

(** The arithmetic of tensor elements: the constants [0] and [2], the
    three operations the pass uses, and the conversion of a dimension of a
    shape to an element. *)
Class TensorScalar (F : Type) : Type := MkTensorScalar {
  fzero : F;
  ftwo : F;
  fadd : F -> F -> F;
  fsub : F -> F -> F;
  fdiv : F -> F -> F;
  of_dim : Z -> F
}.

#[export] Instance Q_TensorScalar : TensorScalar Q :=
  {| fzero := 0%Q; ftwo := 2%Q; fadd := Qplus; fsub := Qminus; fdiv := Qdiv;
     of_dim := inject_Z |}.

Section PseudoLabels.
Context {F : Type} {FS : TensorScalar F} {Pix Sz : Type}.

(** One row of a detection set returned by [non_max_suppression]: columns
    0-3 the box corners, column 4 the confidence, column 5 the class. *)
Record detection : Type := MkDetection {
  d_x1 : F;
  d_y1 : F;
  d_x2 : F;
  d_y2 : F;
  d_conf : F;
  d_cls : F
}.

(** One image [imgs0[index]]: its shape [(C, H, W)] and its pixels. *)
Record image : Type := MkImage {
  im_shape : Z * Z * Z;
  im_data : Pix
}.

(** The batch tensor [imgs0] of shape [(B, C, H, W)]: [B] is the number of
    items. *)
Record batch_tensor : Type := MkBatchTensor {
  bt_chw : Z * Z * Z;
  bt_items : list Pix
}.

Definition bt_shape (t : batch_tensor) : Z * Z * Z * Z :=
  let '(c, h, w) := bt_chw t in (Z.of_nat (List.length (bt_items t)), c, h, w).

(** [imgs0[index]] *)
Definition bt_getitem (t : batch_tensor) (index : nat) : result image :=
  match nth_error (bt_items t) index with
  | Some d => Ok {| im_shape := bt_chw t; im_data := d |}
  | None => Err (IndexError "index out of range")
  end.

(** What line 356 keeps of a batch of the unlabeled loader. *)
Record batch : Type := MkBatch {
  b_imgs0 : batch_tensor;
  b_path : list string
}.

(** Line 361: [torch.tensor(imgs0.shape)[[3, 2, 3, 2]]]. *)
Definition gn_of (t : batch_tensor) : Z * Z * Z * Z :=
  let '(_, _, d2, d3) := bt_shape t in (d3, d2, d3, d2).

(** Modelled from the spec: [xyxy2xywh] of [utils.general], which is not
    among the sources; it converts a box from corner form [x1,y1,x2,y2] to
    center-size form, center [((x1+x2)/2, (y1+y2)/2)], width [x2-x1],
    height [y2-y1]. *)
Definition xyxy2xywh (b : F * F * F * F) : F * F * F * F :=
  let '(x1, y1, x2, y2) := b in
  (fdiv (fadd x1 x2) ftwo, fdiv (fadd y1 y2) ftwo, fsub x2 x1, fsub y2 y1).

(** Lines 368-371 for one row of [pre]: the zero of [torch.zeros], the
    class, and the converted box divided by [gn]. *)
Definition label_record (gn : Z * Z * Z * Z) (d : detection) : list F :=
  let '(g0, g1, g2, g3) := gn in
  let '(x, y, w, h) := xyxy2xywh (d_x1 d, d_y1 d, d_x2 d, d_y2 d) in
  [fzero; d_cls d; fdiv x (of_dim g0); fdiv y (of_dim g1);
   fdiv w (of_dim g2); fdiv h (of_dim g3)].

Definition label_records (gn : Z * Z * Z * Z) (pre : list detection)
  : list (list F) :=
  map (label_record gn) pre.

(** The three lists [img], [target] and [Path]. *)
Definition collected : Type := list image * list (list (list F)) * list string.

Definition nth_path (l : list string) (index : nat) : result string :=
  match nth_error l index with
  | Some p => Ok p
  | None => Err (IndexError "list index out of range")
  end.

(** Lines 364-374: the loop over [enumerate(pred)] from position [index]. *)
Fixpoint label_images (imgs0 : batch_tensor) (paths : list string)
  (gn : Z * Z * Z * Z) (index : nat) (pred : list (list detection))
  (acc : collected) : result collected :=
  match pred with
  | [] => Ok acc
  | pre :: rest =>
      if Nat.eqb (List.length pre) 0
      then label_images imgs0 paths gn (S index) rest acc
      else
        let '(img, tgt, Path) := acc in
        im <- bt_getitem imgs0 index ;;
        p <- nth_path paths index ;;
        label_images imgs0 paths gn (S index) rest
          (img ++ [im], tgt ++ [label_records gn pre], Path ++ [p])
  end.

(** Lines 355-374: the loop over the unlabeled loader.  [predict] is the
    model followed by [non_max_suppression] with the options of the run. *)
Fixpoint label_batches (predict : batch_tensor -> list (list detection))
  (loader : list batch) (acc : collected) : result collected :=
  match loader with
  | [] => Ok acc
  | b :: rest =>
      let imgs0 := b_imgs0 b in
      acc1 <- label_images imgs0 (b_path b) (gn_of imgs0) 0 (predict imgs0) acc ;;
      label_batches predict rest acc1
  end.

(** Lines 351-376: the container built from the three lists. *)
Definition pseudo_label_pass (predict : batch_tensor -> list (list detection))
  (loader : list batch)
  : result (semiDataset image (list (list F)) string Sz) :=
  acc <- label_batches predict loader ([], [], []) ;;
  let '(img, tgt, Path) := acc in
  Ok (semiDataset_init img tgt Path).

(** The record of one detection in the words of the specification, for an
    image of shape [(h, w)]. *)
Definition spec_record (h w : Z) (d : detection) : list F :=
  [fzero; d_cls d;
   fdiv (fdiv (fadd (d_x1 d) (d_x2 d)) ftwo) (of_dim w);
   fdiv (fdiv (fadd (d_y1 d) (d_y2 d)) ftwo) (of_dim h);
   fdiv (fsub (d_x2 d) (d_x1 d)) (of_dim w);
   fdiv (fsub (d_y2 d) (d_y1 d)) (of_dim h)].

Definition spec_records (im : image) (pre : list detection) : list (list F) :=
  let '(_, h, w) := im_shape im in map (spec_record h w) pre.

(** An image of a batch with its detection set and its path. *)
Definition visit : Type := image * list detection * string.

Definition v_img (v : visit) : image := fst (fst v).
Definition v_dets (v : visit) : list detection := snd (fst v).
Definition v_path (v : visit) : string := snd v.

(** The images of a batch with their detection sets and paths, in order. *)
Definition batch_visits (predict : batch_tensor -> list (list detection))
  (b : batch) : list visit :=
  map (fun x => ({| im_shape := bt_chw (b_imgs0 b); im_data := fst (fst x) |},
                 snd (fst x), snd x))
      (combine (combine (bt_items (b_imgs0 b)) (predict (b_imgs0 b))) (b_path b)).

Definition has_detections (v : visit) : bool :=
  negb (Nat.eqb (List.length (v_dets v)) 0).

(** The images that survive suppression with at least one detection. *)
Definition labelled_visits (predict : batch_tensor -> list (list detection))
  (loader : list batch) : list visit :=
  filter has_detections (flat_map (batch_visits predict) loader).

(** The loader hands one path per image and the suppression routine
    returns one detection set per image. *)
Definition well_formed (predict : batch_tensor -> list (list detection))
  (loader : list batch) : Prop :=
  Forall (fun b => List.length (predict (b_imgs0 b)) = List.length (bt_items (b_imgs0 b))
                   /\ List.length (b_path b) = List.length (bt_items (b_imgs0 b)))
         loader.

Definition images_processed (loader : list batch) : nat :=
  list_sum (map (fun b => List.length (bt_items (b_imgs0 b))) loader).
End PseudoLabels.

Arguments detection : clear implicits.
Arguments image : clear implicits.
Arguments batch_tensor : clear implicits.
Arguments batch : clear implicits.
Arguments collected : clear implicits.
Arguments visit : clear implicits.

(** A loader of one batch of two 640x480 images; the first has one
    detection, the second none. *)
Definition two_image_loader : list (batch nat) :=
  [ {| b_imgs0 := {| bt_chw := (3, 480, 640); bt_items := [7%nat; 8%nat] |};
       b_path := ["a.jpg"; "b.jpg"] |} ].

Definition one_box : detection Q :=
  {| d_x1 := 100; d_y1 := 50; d_x2 := 300; d_y2 := 250; d_conf := 9 # 10; d_cls := 1 |}%Q.

Definition one_box_predict (t : batch_tensor nat) : list (list (detection Q)) :=
  map (fun px => if Nat.eqb px 7 then [one_box] else []) (bt_items t).

(* ================================================================== *)
(** * Further models and sample data *)
(* ================================================================== *)

(** A convolution, its batch normalization and a second convolution with a
    bias: every Parameter is a [weight] or a [bias], and none is shared. *)
Definition conv_bn_model : list module :=
  [ OtherModule Conv2d [("weight", AParameter 0%nat); ("bias", ANone)];
    BatchNorm2d (Some 1%nat) (Some 2%nat);
    OtherModule Conv2d [("weight", AParameter 3%nat); ("bias", AParameter 4%nat)] ].

(** [isinstance(v, nn.BatchNorm2d)] *)
Definition is_BatchNorm2d (v : module) : bool :=
  match v with
  | BatchNorm2d _ _ => true
  | OtherModule _ _ => false
  end.

(** The locals of a run asked for 300 epochs from [last.pt]. *)
Definition sample_locals : train_locals :=
  {| loc_weights := "last.pt"; loc_epochs := 300; loc_batch_size := 16;
     loc_total_batch_size := 16; loc_rank := -1; loc_nc := 80; loc_nbs := 64;
     loc_accumulate := 4 |}.

Section PassSafety.
Context {F : Type} {Pix : Type}.

(** The visits of a batch from position [index] on: the images, detection
    sets and paths paired as long as all three last. *)
Definition visits_from (chw : Z * Z * Z) (index : nat) (items : list Pix)
  (pred : list (list (detection F))) (paths : list string) : list (visit F Pix) :=
  map (fun x => ({| im_shape := chw; im_data := fst (fst x) |}, snd (fst x), snd x))
      (combine (combine (skipn index items) pred) (skipn index paths)).

(** Every non-empty detection set of the batch sits at a position that
    has an image and a path. *)
Definition batch_safe (predict : batch_tensor Pix -> list (list (detection F)))
  (b : batch Pix) : Prop :=
  forall k pre,
    nth_error (predict (b_imgs0 b)) k = Some pre -> pre <> [] ->
    (k < List.length (bt_items (b_imgs0 b)))%nat /\ (k < List.length (b_path b))%nat.
End PassSafety.

(** A suppression routine that returns the detection set of the first
    image only, and one that returns a non-empty set too many. *)
Definition first_only_predict (t : batch_tensor nat) : list (list (detection Q)) :=
  [[one_box]].

Definition one_too_many_predict (t : batch_tensor nat) : list (list (detection Q)) :=
  [[]; []; [one_box]].

(* ================================================================== *)
(** * train: gradient accumulation and weight decay (lines 109-111) *)
(* ================================================================== *)

(** [round(x)] of a float: the nearest integer, a tie going to the even
    one. *)
Definition py_round (x : Q) : Z :=
  let f := Qfloor x in
  match Qcompare (x - inject_Z f) (1 # 2) with
  | Lt => f
  | Gt => f + 1
  | Eq => if Z.even f then f else f + 1
  end.

(** Line 110: [max(round(nbs / total_batch_size), 1)].  A quotient of 64 by
    an integer is either a tie exactly or far from one, so rounding the
    float and rounding the rational agree. *)
Definition accumulate_steps (nbs total_batch_size : Z) : result Z :=
  r <- py_truediv (PInt nbs) (PInt total_batch_size) ;;
  Ok (Z.max (py_round (num_Q r)) 1).

(** Lines 109-111: [accumulate] and the new [hyp['weight_decay']]. *)
Definition scale_weight_decay (weight_decay : Q) (total_batch_size : Z)
  : result (Z * Q) :=
  let nbs := 64 in
  accumulate <- accumulate_steps nbs total_batch_size ;;
  factor <- py_truediv (PInt (total_batch_size * accumulate)) (PInt nbs) ;;
  Ok (accumulate, (weight_decay * num_Q factor)%Q).

(* ================================================================== *)
(** * train: the linear schedule (line 134) *)
(* ================================================================== *)

(** The lambda of line 134 applied to the epoch [x]; [epochs] is the value
    of the local when the lambda is called. *)
Definition lf_linear (lrf : Q) (epochs x : Z) : result Q :=
  r <- py_truediv (PInt x) (PInt (epochs - 1)) ;;
  Ok ((1 - num_Q r) * (1 - lrf) + lrf)%Q.

(* ================================================================== *)
(** * train: wrapping the model (lines 177-183 and 221-224) *)
(* ================================================================== *)




(* ================================================================== *)
(** * train: the batch counter (line 263) *)
(* ================================================================== *)

(** [ni = i + nb * epoch] *)
Definition global_iteration (nb epoch i : Z) : Z := i + nb * epoch.

(* ================================================================== *)
(** * train: fitness and checkpoint at the end of an epoch (lines 325-339) *)
(* ================================================================== *)

Section EpochEnd.
Context {M Em Os : Type}.

(** The dictionary of lines 330-336. *)
Record saved_checkpoint : Type := MkSaved {
  sv_epoch : Z;
  sv_best_fitness : Q;
  sv_training_results : string;
  sv_model : M;
  sv_ema : Em;
  sv_updates : Z;
  sv_optimizer : Os
}.

(** Lines 326-339 on the process of rank -1 or 0, where [final_epoch] is
    bound and the EMA helper exists.  [fi] is the fitness of line 325,
    [read_text] what [results_file.read_text()] gives, [model], [ema_model]
    and [optimizer] the three snapshots.  Returns the new [best_fitness]
    and the checkpoint written to [best.pt], if any. *)
Definition epoch_end (nosave evolve final_epoch : bool) (epoch : Z)
  (fi best_fitness : Q) (read_text : result string) (model : M) (ema_model : Em)
  (updates : Z) (optimizer : Os) : result (Q * option saved_checkpoint) :=
  let best1 := if negb (Qle_bool fi best_fitness) then fi else best_fitness in
  if negb nosave || (final_epoch && negb evolve) then
    text <- read_text ;;
    let ckpt := {| sv_epoch := epoch; sv_best_fitness := best1;
                   sv_training_results := text; sv_model := model;
                   sv_ema := ema_model; sv_updates := updates;
                   sv_optimizer := optimizer |} in
    Ok (best1, if Qeq_bool best1 fi then Some ckpt else None)
  else Ok (best1, None).
End EpochEnd.

Arguments saved_checkpoint : clear implicits.

(* ================================================================== *)
(** * train: which names are local (lines 59-377) *)
(* ================================================================== *)

(** The parameters of [train]. *)
Definition train_parameters : list string := ["hyp"; "opt"; "device"].

(** The names bound somewhere in the body of [train], by an assignment, a
    [for], a [with ... as] or a [del], in the order of their first binding
    line. *)
Definition train_assigned : list (Z * string) :=
  [ (60, "save_dir"); (60, "epochs"); (60, "batch_size"); (60, "total_batch_size");
    (60, "weights"); (60, "rank"); (62, "do_semi"); (64, "wdir"); (66, "last");
    (67, "best"); (68, "results_file"); (71, "f"); (77, "plots"); (78, "cuda");
    (81, "data_dict"); (82, "nc"); (83, "names"); (87, "pretrained"); (91, "ckpt");
    (92, "model"); (93, "exclude"); (94, "state_dict"); (103, "train_path");
    (104, "test_path"); (109, "nbs"); (110, "accumulate"); (114, "pg0"); (114, "pg1");
    (114, "pg2"); (115, "k"); (115, "v"); (125, "optimizer"); (134, "lf");
    (137, "scheduler"); (141, "ema"); (144, "start_epoch"); (144, "best_fitness");
    (172, "gs"); (173, "nl"); (174, "imgsz"); (174, "imgsz_test"); (187, "dataloader");
    (187, "dataset"); (187, "unlabeldataloader"); (199, "mlc"); (200, "nb");
    (207, "testloader"); (213, "labels"); (214, "c"); (240, "t0"); (241, "nw");
    (243, "maps"); (244, "results"); (246, "scaler"); (247, "compute_loss");
    (248, "burnin_epochs"); (251, "epoch"); (254, "mloss"); (257, "pbar"); (262, "i");
    (262, "imgs"); (262, "targets"); (262, "paths"); (262, "_"); (263, "ni");
    (268, "xi"); (270, "j"); (270, "x"); (278, "pred"); (279, "loss");
    (279, "loss_item"); (299, "mem"); (300, "s"); (310, "final_epoch"); (313, "times");
    (325, "fi"); (351, "img"); (352, "target"); (353, "Path"); (355, "idx");
    (355, "batch"); (356, "imgs0"); (356, "path"); (361, "gn"); (364, "index");
    (364, "pre"); (365, "predict_number"); (368, "Class"); (369, "XYWH");
    (376, "unlabeldataset") ].

(** The names bound at module level by lines 1-59. *)
Definition module_names : list string :=
  [ "any"; "enumerate"; "hasattr"; "int"; "isinstance"; "len"; "max"; "open"; "range";
    "round"; "vars"; "argparse"; "logging"; "math"; "os"; "random"; "time"; "deepcopy";
    "Path"; "Thread"; "torch"; "np"; "dist"; "nn"; "F"; "optim"; "lr_scheduler"; "data";
    "ConcatDataset"; "DataLoader"; "Dataset"; "yaml"; "amp"; "DDP"; "tqdm"; "Image";
    "torchvision"; "test"; "attempt_load"; "Model"; "check_anchors"; "create_dataloader";
    "LoadImagesAndLabels"; "labels_to_class_weights"; "increment_path";
    "labels_to_image_weights"; "init_seeds"; "fitness"; "strip_optimizer";
    "get_latest_run"; "check_dataset"; "check_file"; "check_git_status";
    "check_img_size"; "check_requirements"; "print_mutation"; "set_logging";
    "one_cycle"; "colorstr"; "non_max_suppression"; "xyxy2xywh"; "attempt_download";
    "ComputeLoss"; "plot_images"; "plot_labels"; "plot_evolution"; "ModelEMA";
    "select_device"; "intersect_dicts"; "torch_distributed_zero_first"; "is_parallel";
    "logger"; "semiDataset"; "train" ].

Definition mem_name (name : string) (names : list string) : bool :=
  existsb (String.eqb name) names.

(** A name of the body of [train] is local when it is a parameter or is
    bound anywhere in the body. *)
Definition is_local (name : string) : bool :=
  mem_name name (train_parameters ++ map snd train_assigned).

Inductive load_outcome : Type :=
| Loaded
| UnboundLocalError (name : string)
| FromBuiltins (name : string).

(** Reading [name] in the body of [train] when the locals [bound] hold a
    value: a local is read from the frame and nowhere else; any other name
    is looked up in the module, then in the builtins. *)
Definition load_name (bound : list string) (name : string) : load_outcome :=
  if is_local name then
    if mem_name name bound then Loaded else UnboundLocalError name
  else if mem_name name module_names then Loaded
  else FromBuiltins name.

(** The reads of a statement in order, up to the first that fails. *)
Fixpoint load_names (bound : list string) (names : list string) : load_outcome :=
  match names with
  | [] => Loaded
  | n :: rest =>
      match load_name bound n with
      | Loaded => load_names bound rest
      | failed => failed
      end
  end.

(** The names read by the statement of lines 60-61, in evaluation order:
    [Path(opt.save_dir), opt.epochs, opt.batch_size, opt.total_batch_size,
    opt.weights, opt.global_rank]. *)
Definition line_60_reads : list string :=
  ["Path"; "opt"; "opt"; "opt"; "opt"; "opt"; "opt"].

(** The locals that hold a value when control reaches line 186: those
    bound by lines 60-168 and not deleted by lines 131 and 168, and, when
    the weights are a checkpoint, those of lines 172-174. *)
Definition bound_at_line_186 (pretrained : bool) : list string :=
  train_parameters
  ++ [ "save_dir"; "epochs"; "batch_size"; "total_batch_size"; "weights"; "rank";
       "do_semi"; "wdir"; "last"; "best"; "results_file"; "f"; "plots"; "cuda";
       "data_dict"; "nc"; "names"; "pretrained"; "model"; "train_path"; "test_path";
       "nbs"; "accumulate"; "k"; "v"; "optimizer"; "lf"; "scheduler"; "ema";
       "start_epoch"; "best_fitness" ]
  ++ (if pretrained then ["exclude"; "gs"; "nl"; "imgsz"; "imgsz_test"] else []).

(** The names read by the call of [create_dataloader] of lines 187-190
    (and of lines 192-195), in evaluation order. *)
Definition loader_call_reads : list string :=
  [ "create_dataloader"; "train_path"; "imgsz"; "batch_size"; "gs"; "opt"; "hyp";
    "opt"; "opt"; "rank"; "opt"; "opt"; "opt"; "opt"; "colorstr"; "opt" ].

(* ================================================================== *)
(** * train: the mean loss and the optimizer step (lines 254, 289, 298) *)
(* ================================================================== *)






(* ================================================================== *)
(** * Theorems *)
(* ================================================================== *)

(** ** Python indexing *)

Lemma py_getitem_nth {A : Type} (l : list A) (i : Z) (a : A) :
  0 <= i -> nth_error l (Z.to_nat i) = Some a -> py_getitem l i = Ok a.
Proof.
  intros Hi Hnth. unfold py_getitem.
  assert (Hlt : (Z.to_nat i < List.length l)%nat).
  { apply nth_error_Some. rewrite Hnth. discriminate. }
  destruct (i <? 0) eqn:Hneg; [apply Z.ltb_lt in Hneg; lia|].
  replace ((0 <=? i) && (i <? Z.of_nat (List.length l))) with true.
  - now rewrite Hnth.
  - symmetry. apply andb_true_iff. split; [apply Z.leb_le | apply Z.ltb_lt]; lia.
Qed.

Lemma py_getitem_beyond {A : Type} (l : list A) (i : Z) :
  Z.of_nat (List.length l) <= i ->
  py_getitem l i = Err (IndexError "list index out of range").
Proof.
  intros Hi. unfold py_getitem.
  destruct (i <? 0) eqn:Hneg; [apply Z.ltb_lt in Hneg; lia|].
  replace (i <? Z.of_nat (List.length l)) with false.
  - now rewrite andb_false_r.
  - symmetry. apply Z.ltb_ge. lia.
Qed.

(** ** The container *)

Section ContainerFacts.
Context {I T P S : Type}.
Variables (imgs0 : list I) (target0 : list T) (path0 : list P).

Let d : semiDataset I T P S := semiDataset_init imgs0 target0 path0.

(** C8. A container built from [imgs0], [target0] and [path0] has the
    length of [imgs0] and a [size] field holding no value; at a position
    [i >= 0] where an image, a label-record set and a path were supplied,
    indexed access returns exactly these three with the [size] field; at
    any index from the length on, it raises [IndexError]. *)
Theorem semiDataset_length_and_access :
  semiDataset_len d = Z.of_nat (List.length imgs0) /\
  size d = None /\
  (forall i im t p,
      0 <= i ->
      nth_error imgs0 (Z.to_nat i) = Some im ->
      nth_error target0 (Z.to_nat i) = Some t ->
      nth_error path0 (Z.to_nat i) = Some p ->
      semiDataset_getitem d i = Ok (im, t, p, None)) /\
  (forall i,
      semiDataset_len d <= i ->
      semiDataset_getitem d i = Err (IndexError "list index out of range")).
Proof.
  repeat split.
  - intros i im t p Hi Him Ht Hp. unfold semiDataset_getitem, d; simpl.
    rewrite (py_getitem_nth imgs0 i im Hi Him). simpl.
    rewrite (py_getitem_nth target0 i t Hi Ht). simpl.
    now rewrite (py_getitem_nth path0 i p Hi Hp).
  - intros i Hi. unfold semiDataset_getitem, d; simpl.
    unfold semiDataset_len, d in Hi; simpl in Hi.
    now rewrite (py_getitem_beyond imgs0 i Hi).
Qed.

(** C9. Construction makes no check, so it yields a container whatever
    the three lengths are, and its length is the length of [imgs0] alone;
    at a position valid for [imgs0] but at or beyond the end of [target0]
    or of [path0], indexed access raises [IndexError] and returns no
    tuple. *)
Theorem semiDataset_unequal_lengths :
  imgs d = imgs0 /\ target d = target0 /\ path d = path0 /\
  semiDataset_len d = Z.of_nat (List.length imgs0) /\
  (forall i,
      0 <= i < Z.of_nat (List.length imgs0) ->
      Z.of_nat (List.length target0) <= i \/ Z.of_nat (List.length path0) <= i ->
      semiDataset_getitem d i = Err (IndexError "list index out of range")).
Proof.
  repeat split.
  intros i [Hi0 Hi] Hshort. unfold semiDataset_getitem, d; simpl.
  destruct (nth_error imgs0 (Z.to_nat i)) as [im|] eqn:Him.
  2:{ apply nth_error_None in Him. lia. }
  rewrite (py_getitem_nth imgs0 i im Hi0 Him). simpl.
  destruct (Z_le_gt_dec (Z.of_nat (List.length target0)) i) as [Ht|Ht].
  - now rewrite (py_getitem_beyond target0 i Ht).
  - destruct (nth_error target0 (Z.to_nat i)) as [t|] eqn:Hti.
    2:{ apply nth_error_None in Hti. lia. }
    rewrite (py_getitem_nth target0 i t Hi0 Hti). simpl.
    destruct Hshort as [Hs|Hs]; [lia|].
    now rewrite (py_getitem_beyond path0 i Hs).
Qed.
End ContainerFacts.

Lemma semiDataset_length_and_access_witness :
  semiDataset_getitem
    (semiDataset_init (S := Z) ["a"; "b"; "c"] [10; 20; 30] [true; false; true]) 1
  = Ok ("b", 20, false, None)
  /\ semiDataset_getitem
       (semiDataset_init (S := Z) ["a"; "b"; "c"] [10; 20; 30] [true; false; true]) 3
     = Err (IndexError "list index out of range").
Proof.
  pose proof (semiDataset_length_and_access (S := Z)
                ["a"; "b"; "c"] [10; 20; 30] [true; false; true]) as H.
  destruct H as (_ & _ & Hin & Hout). split.
  - apply Hin; [lia | reflexivity | reflexivity | reflexivity].
  - apply Hout. vm_compute. discriminate.
Defined.

Lemma semiDataset_unequal_lengths_witness :
  semiDataset_len (semiDataset_init (S := Z) ["a"; "b"; "c"] [10] [true; false]) = 3
  /\ semiDataset_getitem
       (semiDataset_init (S := Z) ["a"; "b"; "c"] [10] [true; false]) 1
     = Err (IndexError "list index out of range").
Proof.
  pose proof (semiDataset_unequal_lengths (S := Z)
                ["a"; "b"; "c"] [10] [true; false]) as H.
  destruct H as (_ & _ & _ & Hlen & Hidx). split.
  - exact Hlen.
  - apply Hidx; simpl; lia.
Defined.

(** A negative index counts from the end of each sequence. *)
Example semiDataset_getitem_last :
  semiDataset_getitem
    (semiDataset_init (S := Z) ["a"; "b"; "c"] [10; 20; 30] [true; false; true]) (-1)
  = Ok ("c", 30, true, None).
Proof. reflexivity. Qed.

(** ** Configuration *)

Lemma configure_cases (single_cls : bool) (data : string) (d : data_dict) :
  let nc := resolve_nc single_cls d in
  let names := resolve_names single_cls d in
  (Z.of_nat (List.length names) = nc /\ configure single_cls data d = Ok (nc, names)) \/
  (Z.of_nat (List.length names) <> nc /\
   configure single_cls data d = Err (AssertionError (names_message names nc data))).
Proof.
  intros nc names. unfold configure. fold nc names.
  destruct (Z.of_nat (List.length names) =? nc) eqn:E.
  - left. apply Z.eqb_eq in E. now split.
  - right. apply Z.eqb_neq in E. now split.
Qed.

(** C4. The resolved class count is 1 in single-class mode and the
    descriptor's [nc] otherwise; the resolved names are [["item"]] in
    single-class mode when the descriptor does not carry exactly one name,
    and the descriptor's names otherwise; the configuration step returns
    the two when the number of names equals the class count, and raises
    the assertion error whose message carries both counts and the data
    file exactly when they differ. *)
Theorem configure_resolves_classes (single_cls : bool) (data : string) (d : data_dict) :
  (single_cls = true -> resolve_nc single_cls d = 1) /\
  (single_cls = false -> resolve_nc single_cls d = dd_nc d) /\
  (single_cls = true -> List.length (dd_names d) <> 1%nat ->
   resolve_names single_cls d = ["item"]) /\
  (single_cls = false \/ List.length (dd_names d) = 1%nat ->
   resolve_names single_cls d = dd_names d) /\
  (configure single_cls data d = Ok (resolve_nc single_cls d, resolve_names single_cls d)
   <-> Z.of_nat (List.length (resolve_names single_cls d)) = resolve_nc single_cls d) /\
  (configure single_cls data d
   = Err (AssertionError
            (Message "%g names found for nc=%g dataset in %s"
               [FInt (Z.of_nat (List.length (resolve_names single_cls d)));
                FInt (resolve_nc single_cls d); FStr data]))
   <-> Z.of_nat (List.length (resolve_names single_cls d)) <> resolve_nc single_cls d).
Proof.
  split; [|split; [|split; [|split; [|split]]]].
  - now intros ->.
  - now intros ->.
  - intros -> Hlen. unfold resolve_names. simpl.
    destruct (Z.of_nat (List.length (dd_names d)) =? 1) eqn:E; [|reflexivity].
    apply Z.eqb_eq in E. lia.
  - intros [-> | Hlen]; unfold resolve_names; [reflexivity|].
    rewrite Hlen. simpl. now rewrite andb_false_r.
  - destruct (configure_cases single_cls data d) as [[He Hc] | [He Hc]];
      rewrite Hc; split; intro H; try assumption; try reflexivity;
      try discriminate; contradiction.
  - fold (names_message (resolve_names single_cls d) (resolve_nc single_cls d) data).
    destruct (configure_cases single_cls data d) as [[He Hc] | [He Hc]];
      rewrite Hc; split; intro H; try assumption; try reflexivity;
      try discriminate; contradiction.
Qed.

Lemma configure_resolves_classes_witness :
  configure true "data.yaml" (MkDataDict 3 ["a"; "b"] "train" "val") = Ok (1, ["item"])
  /\ resolve_names true (MkDataDict 1 ["a"] "train" "val") = ["a"]
  /\ configure false "data.yaml" (MkDataDict 3 ["a"; "b"] "train" "val")
     = Err (AssertionError
              (Message "%g names found for nc=%g dataset in %s"
                 [FInt 2; FInt 3; FStr "data.yaml"])).
Proof.
  split; [|split].
  - destruct (configure_resolves_classes true "data.yaml"
                (MkDataDict 3 ["a"; "b"] "train" "val")) as (_ & _ & _ & _ & Hok & _).
    apply Hok. reflexivity.
  - destruct (configure_resolves_classes true "data.yaml"
                (MkDataDict 1 ["a"] "train" "val")) as (_ & _ & _ & Hkeep & _).
    apply Hkeep. right. reflexivity.
  - destruct (configure_resolves_classes false "data.yaml"
                (MkDataDict 3 ["a"; "b"] "train" "val")) as (_ & _ & _ & _ & _ & Herr).
    apply Herr. simpl. lia.
Defined.

(** ** Dataset-level validation *)

Lemma fold_left_max_ge (cs : list Z) (c : Z) :
  c <= fold_left Z.max cs c /\ Forall (fun x => x <= fold_left Z.max cs c) cs.
Proof.
  revert c. induction cs as [|x cs IH]; intros c; simpl.
  - split; [lia | constructor].
  - destruct (IH (Z.max c x)) as [H1 H2]. split; [lia|].
    constructor; [lia | exact H2].
Qed.

Lemma fold_left_max_In (cs : list Z) (c : Z) :
  In (fold_left Z.max cs c) (c :: cs).
Proof.
  revert c. induction cs as [|x cs IH]; intros c; simpl.
  - now left.
  - destruct (IH (Z.max c x)) as [H | H].
    + destruct (Z.max_spec c x) as [[_ E] | [_ E]]; rewrite E in H |- *; auto.
    + auto.
Qed.

Lemma np_max_spec (a : list Z) :
  a <> [] ->
  exists m, np_max a = Ok m /\ In m a /\ Forall (fun x => x <= m) a.
Proof.
  destruct a as [|c cs]; [congruence|]. intros _.
  exists (fold_left Z.max cs c). simpl. split; [reflexivity|]. split.
  - apply (fold_left_max_In cs c).
  - destruct (fold_left_max_ge cs c) as [H1 H2]. now constructor.
Qed.

Lemma check_label_classes_cases (labels : list (list label_row)) (nc m : Z)
  (data : string) :
  max_label_class labels = Ok m ->
  (m < nc /\ check_label_classes labels nc data = Ok m) \/
  (nc <= m /\
   check_label_classes labels nc data = Err (AssertionError (label_message m nc data))).
Proof.
  intros Hm. unfold check_label_classes. rewrite Hm. simpl.
  destruct (m <? nc) eqn:E.
  - left. apply Z.ltb_lt in E. now split.
  - right. apply Z.ltb_ge in E. now split.
Qed.

(** C5. When the training set has at least one label row, line 199
    yields the maximum [m] of the class column; the check returns exactly
    when [m < nc] and otherwise raises the assertion error whose message
    carries [m], [nc], the data file and [nc-1], the upper end of the valid
    range; so [m = nc] fails and [m = nc-1] passes. *)
Theorem label_class_validation (labels : list (list label_row)) (nc : Z)
  (data : string) :
  List.concat labels <> [] ->
  exists m,
    max_label_class labels = Ok m /\
    In m (map l_cls (List.concat labels)) /\
    (forall c, In c (map l_cls (List.concat labels)) -> c <= m) /\
    (check_label_classes labels nc data = Ok m <-> m < nc) /\
    (check_label_classes labels nc data
     = Err (AssertionError
              (Message "Label class %g exceeds nc=%g in %s. Possible class labels are 0-%g"
                 [FInt m; FInt nc; FStr data; FInt (nc - 1)]))
     <-> nc <= m) /\
    (m = nc -> exists e, check_label_classes labels nc data = Err e) /\
    (m = nc - 1 -> check_label_classes labels nc data = Ok m).
Proof.
  intros Hne.
  assert (Hcol : map l_cls (List.concat labels) <> []).
  { intros E. apply map_eq_nil in E. contradiction. }
  destruct (np_max_spec _ Hcol) as (m & Hmax & Hin & Hub).
  assert (Hm : max_label_class labels = Ok m).
  { unfold max_label_class, np_concatenate.
    destruct labels as [|l ls]; [simpl in Hne; congruence|]. simpl. exact Hmax. }
  exists m. split; [exact Hm|]. split; [exact Hin|]. split.
  { intros c Hc. rewrite Forall_forall in Hub. now apply Hub. }
  fold (label_message m nc data).
  destruct (check_label_classes_cases labels nc m data Hm) as [[Hlt Hc] | [Hge Hc]];
    rewrite Hc; repeat split; intros; try lia; try discriminate; try reflexivity;
    eauto.
Qed.

Lemma label_class_validation_witness :
  (exists m, check_label_classes
               [[MkLabelRow 0 (0, 0, 1, 1)%Q]; []; [MkLabelRow 2 (0, 0, 1, 1)%Q]] 3 "d.yaml"
             = Ok m /\ m = 2)
  /\ check_label_classes
       [[MkLabelRow 0 (0, 0, 1, 1)%Q]; []; [MkLabelRow 2 (0, 0, 1, 1)%Q]] 2 "d.yaml"
     = Err (AssertionError
              (Message "Label class %g exceeds nc=%g in %s. Possible class labels are 0-%g"
                 [FInt 2; FInt 2; FStr "d.yaml"; FInt 1])).
Proof.
  split.
  - destruct (label_class_validation
                [[MkLabelRow 0 (0, 0, 1, 1)%Q]; []; [MkLabelRow 2 (0, 0, 1, 1)%Q]]
                3 "d.yaml") as (m & Hm & _ & _ & Hok & _).
    + simpl. discriminate.
    + assert (E : m = 2) by (vm_compute in Hm; congruence).
      exists m. split; [apply Hok; lia | exact E].
  - destruct (label_class_validation
                [[MkLabelRow 0 (0, 0, 1, 1)%Q]; []; [MkLabelRow 2 (0, 0, 1, 1)%Q]]
                2 "d.yaml") as (m & Hm & _ & _ & _ & Herr & _).
    + simpl. discriminate.
    + assert (E : m = 2) by (vm_compute in Hm; congruence).
      subst m. apply Herr. lia.
Defined.

(** ** Optimizer parameter groups *)

Lemma partition_step_adds (g : groups) (v : module) :
  pg0 (partition_step g v) = pg0 g ++ adds_to_pg0 v /\
  pg1 (partition_step g v) = pg1 g ++ adds_to_pg1 v /\
  pg2 (partition_step g v) = pg2 g ++ adds_to_pg2 v.
Proof.
  unfold partition_step, adds_to_pg2.
  destruct v as [w b | c attrs]; simpl.
  - destruct b; simpl; rewrite ?app_nil_r; auto.
  - destruct (get_parameter attrs "bias"), (get_parameter attrs "weight");
      simpl; rewrite ?app_nil_r; auto.
Qed.

Lemma fold_partition_step (mods : list module) (g : groups) :
  pg0 (fold_left partition_step mods g) = pg0 g ++ flat_map adds_to_pg0 mods /\
  pg1 (fold_left partition_step mods g) = pg1 g ++ flat_map adds_to_pg1 mods /\
  pg2 (fold_left partition_step mods g) = pg2 g ++ flat_map adds_to_pg2 mods.
Proof.
  revert g. induction mods as [|v mods IH]; intros g; simpl.
  - rewrite !app_nil_r. auto.
  - destruct (IH (partition_step g v)) as (H0 & H1 & H2).
    destruct (partition_step_adds g v) as (E0 & E1 & E2).
    rewrite H0, H1, H2, E0, E1, E2, <- !app_assoc. auto.
Qed.

Lemma param_groups_flat_map (mods : list module) :
  pg0 (param_groups mods) = flat_map adds_to_pg0 mods /\
  pg1 (param_groups mods) = flat_map adds_to_pg1 mods /\
  pg2 (param_groups mods) = flat_map adds_to_pg2 mods.
Proof.
  unfold param_groups.
  destruct (fold_partition_step mods {| pg0 := []; pg1 := []; pg2 := [] |})
    as (H0 & H1 & H2).
  now rewrite H0, H1, H2.
Qed.

Lemma In_some_list {A : Type} (o : option A) (a : A) :
  In a (some_list o) <-> o = Some a.
Proof.
  destruct o as [x|]; simpl; split; intros H; try congruence.
  - destruct H as [-> | []]. reflexivity.
  - left. congruence.
  - contradiction.
Qed.

Lemma get_parameter_In (attrs : list (string * attr)) (name : string) (p : param) :
  get_parameter attrs name = Some p -> exists n, In (n, AParameter p) attrs.
Proof.
  unfold get_parameter.
  destruct (find _ attrs) as [[n a]|] eqn:Hf; [|discriminate].
  destruct a; try discriminate. intros [= ->].
  exists n. apply (find_some _ _ Hf).
Qed.

Lemma module_slot_is_parameter (v : module) (p : param) :
  module_weight v = Some p \/ module_bias v = Some p -> In p (module_parameters v).
Proof.
  destruct v as [w b | c attrs]; simpl.
  - intros [-> | ->]; apply in_or_app; simpl; auto.
  - intros [H | H]; apply get_parameter_In in H; destruct H as [n Hn];
      apply in_flat_map; exists (n, AParameter p); simpl; auto.
Qed.

Lemma flat_map_three {A B : Type} (f g h : A -> list B) (l : list A) :
  Permutation.Permutation
    (flat_map f l ++ flat_map g l ++ flat_map h l)
    (flat_map (fun a => f a ++ g a ++ h a) l).
Proof.
  induction l as [|a l IH]; simpl; [constructor|].
  rewrite <- !app_assoc. apply Permutation.Permutation_app_head.
  etransitivity; [apply Permutation.Permutation_app_swap_app|].
  apply Permutation.Permutation_app_head.
  etransitivity.
  { rewrite app_assoc. apply Permutation.Permutation_app_swap_app. }
  apply Permutation.Permutation_app_head.
  rewrite <- app_assoc. exact IH.
Qed.

Lemma flat_map_some_list_adds (mods : list module) :
  flat_map some_list (flat_map adds_to_pg0 mods)
  = flat_map (fun v => flat_map some_list (adds_to_pg0 v)) mods.
Proof.
  induction mods as [|v mods IH]; simpl; [reflexivity|].
  now rewrite flat_map_app, IH.
Qed.

Lemma group_params_slots (mods : list module) :
  Permutation.Permutation (group_params (param_groups mods)) (weight_bias_slots mods).
Proof.
  unfold group_params, weight_bias_slots.
  destruct (param_groups_flat_map mods) as (-> & -> & ->).
  rewrite flat_map_some_list_adds.
  etransitivity; [apply flat_map_three|].
  erewrite flat_map_ext; [reflexivity|].
  intros [w b | c attrs]; unfold adds_to_pg2; simpl.
  - now rewrite app_nil_r.
  - reflexivity.
Qed.

(** C7, as the code has it.  Group 2 holds exactly the Parameters found
    under the attribute [bias] of a module; group 0 exactly the [weight]
    attributes of the [BatchNorm2d] modules; group 1 exactly the Parameters
    found under the attribute [weight] of any other module, the other
    normalization layers included.  Together the groups hold, with
    multiplicity, exactly the Parameters stored under [weight] and [bias]:
    each is a parameter of the model, none is there twice unless it is
    stored in two such places, and a Parameter stored only under another
    name is in no group. *)
Theorem param_groups_by_attribute (mods : list module) :
  (forall p, In p (pg2 (param_groups mods)) <-> is_bias mods p) /\
  (forall w, In w (pg0 (param_groups mods)) <-> exists b, In (BatchNorm2d w b) mods) /\
  (forall p, In p (pg1 (param_groups mods)) <->
             exists c attrs, In (OtherModule c attrs) mods /\
                             get_parameter attrs "weight" = Some p) /\
  Permutation.Permutation (group_params (param_groups mods)) (weight_bias_slots mods) /\
  (forall p, In p (group_params (param_groups mods)) ->
             In p (model_parameters mods) /\
             exists v, In v mods /\ (module_weight v = Some p \/ module_bias v = Some p)).
Proof.
  destruct (param_groups_flat_map mods) as (E0 & E1 & E2).
  split; [|split; [|split; [|split]]].
  - intros p. rewrite E2, in_flat_map. unfold is_bias, adds_to_pg2.
    split; intros (v & Hv & H); exists v; split; auto; now apply In_some_list.
  - intros w. rewrite E0, in_flat_map. split.
    + intros ([w' b | c attrs] & Hv & H); simpl in H; [|contradiction].
      destruct H as [-> | []]. now exists b.
    + intros (b & Hv). exists (BatchNorm2d w b). simpl. auto.
  - intros p. rewrite E1, in_flat_map. split.
    + intros ([w b | c attrs] & Hv & H); simpl in H; [contradiction|].
      apply In_some_list in H. now exists c, attrs.
    + intros (c & attrs & Hv & H). exists (OtherModule c attrs).
      split; [exact Hv|]. simpl. now apply In_some_list.
  - apply group_params_slots.
  - intros p Hp.
    apply (Permutation.Permutation_in _ (group_params_slots mods)) in Hp.
    unfold weight_bias_slots in Hp. apply in_flat_map in Hp.
    destruct Hp as (v & Hv & H). apply in_app_or in H.
    assert (Hs : module_weight v = Some p \/ module_bias v = Some p).
    { destruct H as [H | H]; apply In_some_list in H; auto. }
    split.
    + unfold model_parameters. apply in_flat_map. exists v.
      split; [exact Hv | now apply module_slot_is_parameter].
    + now exists v.
Qed.

(** C7, as stated, fails on [attention_model]: the Parameter stored under
    [in_proj_weight] is a parameter of the model and is in no group; the
    weight of the [LayerNorm], a normalization layer, is not in group 0;
    and the weight shared by the two [Linear] modules is in the groups
    twice. *)
Lemma attention_model_not_covered :
  ~ strict_three_way_cover attention_model /\
  (In 3%nat (model_parameters attention_model) /\
   ~ In 3%nat (group_params (param_groups attention_model))) /\
  (is_normalization_weight attention_model 5%nat /\
   ~ only_in_group0 (param_groups attention_model) 5%nat) /\
  ~ NoDup (group_params (param_groups attention_model)).
Proof.
  assert (Hin : In 3%nat (model_parameters attention_model)).
  { vm_compute. tauto. }
  assert (Hout : ~ In 3%nat (group_params (param_groups attention_model))).
  { vm_compute. intros H.
    repeat (destruct H as [H | H]; [discriminate H|]). exact H. }
  split; [|split; [|split]].
  - intros (_ & _ & _ & _ & Hcover). apply Hout, Hcover, Hin.
  - split; assumption.
  - split.
    + exists (OtherModule LayerNorm
                [("weight", AParameter 5%nat); ("bias", AParameter 6%nat)]).
      split; [|split; reflexivity]. simpl. tauto.
    + intros (H0 & _). vm_compute in H0.
      destruct H0 as [H0 | H0]; [discriminate H0 | exact H0].
  - intros H. vm_compute in H.
    do 3 (apply NoDup_cons_iff in H; destruct H as [_ H]).
    apply NoDup_cons_iff in H. destruct H as [H _]. apply H. now left.
Qed.

(** The three groups of [attention_model]. *)
Example attention_model_groups :
  param_groups attention_model
  = {| pg0 := [Some 1%nat];
       pg1 := [0%nat; 5%nat; 7%nat; 7%nat];
       pg2 := [2%nat; 6%nat; 8%nat; 9%nat] |}.
Proof. reflexivity. Qed.

(** ** Resume *)

Section ResumeFacts.
Context {O E : Type}.
Variables (l : train_locals) (optimizer : O) (ema : option (E * Z))
          (results_file : option string).


(** Lines 163-167 when the assertion of line 165 is not run or holds: the
    start epoch is the checkpoint's epoch plus one, and an epoch budget
    below it is extended by the checkpoint's epoch. *)
Lemma resume_epochs (opt_resume : bool) (ck : checkpoint O E) :
  opt_resume = false \/ 0 < ck_epoch ck + 1 ->
  exists st,
    resume true opt_resume l ck optimizer ema results_file = Ok st /\
    rs_start_epoch st = ck_epoch ck + 1 /\
    (loc_epochs l < ck_epoch ck + 1 -> rs_epochs st = loc_epochs l + ck_epoch ck) /\
    (ck_epoch ck + 1 <= loc_epochs l -> rs_epochs st = loc_epochs l).
Proof.
  intros Hgo. unfold resume.
  destruct (ck_optimizer ck) as [o|];
    match goal with
    | |- context [bind ?a _] => assert (Ha : a = Ok tt)
    end;
    try (destruct Hgo as [-> | Hpos]; [reflexivity|];
         destruct opt_resume; [|reflexivity];
         unfold py_assert; apply Z.ltb_lt in Hpos; now rewrite Hpos);
    rewrite Ha; simpl; eexists; (split; [reflexivity|]); simpl;
    (split; [reflexivity|]);
    destruct (loc_epochs l <? ck_epoch ck + 1) eqn:Hlt;
    [apply Z.ltb_lt in Hlt | apply Z.ltb_ge in Hlt | apply Z.ltb_lt in Hlt
     | apply Z.ltb_ge in Hlt]; split; intros; try reflexivity; lia.
Qed.

(** C6 at its failing input.  With [resume] requested and a checkpoint
    whose recorded epoch is [-1], so that the start epoch is 0, the
    assertion of line 165 fails and its message is evaluated; the message
    names [weight], which nothing binds, so the run stops with
    [NameError] and the diagnostic naming the weights source and the epoch
    count is never built. *)
Theorem resume_finished_checkpoint_NameError
  (best : Q) (o : option O) (e : option E) (updates : Z) (text : option string) :
  resume true true l
    {| ck_epoch := -1; ck_best_fitness := best; ck_optimizer := o; ck_ema := e;
       ck_updates := updates; ck_training_results := text |}
    optimizer ema results_file
  = Err (NameError "weight").
Proof.
  unfold resume. simpl. now destruct o.
Qed.
End ResumeFacts.

(** ** The burn-in loop header *)

Lemma int_range_spec (start stop e : Z) :
  In e (int_range start stop) <-> start <= e < stop.
Proof.
  unfold int_range. rewrite in_map_iff. split.
  - intros (k & <- & Hk). apply in_seq in Hk. lia.
  - intros He. exists (Z.to_nat (e - start)). split; [lia|].
    apply in_seq. lia.
Qed.

(** [range] over two integers is the interval; so is the loop header once
    its second argument is an integer. *)
Lemma py_range_ints (start stop : Z) :
  exists idx, py_range (PInt start) (PInt stop) = Ok idx /\
              forall e, In e idx <-> start <= e < stop.
Proof.
  exists (int_range start stop). split; [reflexivity|].
  intros e. apply int_range_spec.
Qed.

(** Line 248 always yields a float. *)
Lemma burnin_epochs_is_float (epochs : Z) :
  burnin_epochs epochs = Ok (PFloat (inject_Z epochs / 2)%Q).
Proof. reflexivity. Qed.

(** C2 on the code.  Whatever the epoch budget and the start epoch, the
    header of the burn-in loop raises [TypeError]: line 248 halves the
    budget with true division, the result is a float, and [range] takes
    integers only.  The loop visits no epoch index. *)
Theorem burnin_range_TypeError (start_epoch epochs : Z) :
  burnin_epoch_indices start_epoch epochs
  = Err (TypeError "'float' object cannot be interpreted as an integer").
Proof. reflexivity. Qed.

(** ** Warmup *)

(** Lines 272-274 at [ni = 0]: the bias group gets [warmup_bias_lr], every
    other group 0, and the momentum [warmup_momentum]. *)
Lemma warmup_group_start (h : hyp) (lf_epoch : Q) (nw : Z) (j : nat) (x : param_group) :
  pg_lr (warmup_group h lf_epoch 0 nw j x)
  = (if Nat.eqb j 2 then warmup_bias_lr h else 0%Q) /\
  (forall m, pg_momentum x = Some m ->
             pg_momentum (warmup_group h lf_epoch 0 nw j x) = Some (warmup_momentum h)).
Proof.
  split; [reflexivity|]. intros m Hm. unfold warmup_group. simpl. now rewrite Hm.
Qed.

(** Lines 272-274 at [ni = nw]: every group gets its scheduled rate, and
    the momentum is the configured one. *)
Lemma warmup_group_end (h : hyp) (lf_epoch : Q) (nw : Z) (j : nat) (x : param_group) :
  0 < nw ->
  pg_lr (warmup_group h lf_epoch nw nw j x) = (pg_initial_lr x * lf_epoch)%Q /\
  (forall m, pg_momentum x = Some m ->
             pg_momentum (warmup_group h lf_epoch nw nw j x) = Some (momentum h)).
Proof.
  intros Hnw.
  assert (H0 : Qle_bool (inject_Z nw) 0 = false).
  { destruct (Qle_bool (inject_Z nw) 0) eqn:E; [|reflexivity].
    apply Qle_bool_iff in E. unfold Qle in E. simpl in E. lia. }
  assert (H1 : Qle_bool (inject_Z nw) (inject_Z nw) = true).
  { apply Qle_bool_iff. apply Qle_refl. }
  split.
  - unfold warmup_group, np_interp2. simpl. now rewrite H0, H1.
  - intros m Hm. unfold warmup_group, np_interp2. simpl. now rewrite Hm, H0, H1.
Qed.

(** Halfway through a warmup of 1000 iterations the bias group is halfway
    between 0.1 and its target 0.01. *)
Example warmup_group_halfway :
  (pg_lr (warmup_group {| warmup_bias_lr := 1 # 10; warmup_momentum := 8 # 10;
                          momentum := 937 # 1000 |}
                       1 500 1000 2
                       {| pg_lr := 0; pg_initial_lr := 1 # 100; pg_momentum := None |})
   == 55 # 1000)%Q.
Proof. vm_compute. reflexivity. Qed.

(** C3 on the code.  For every batch, line 267 compares the integer [ni]
    with the list [[0, nw]] and raises [TypeError]; no learning rate and no
    momentum is interpolated. *)
Theorem warmup_TypeError (h : hyp) (lf : Z -> Q) (nbs total_batch_size nw epoch ni : Z)
  (accumulate : pynum) (param_groups0 : list param_group) :
  warmup h lf nbs total_batch_size nw epoch ni accumulate param_groups0
  = Err (TypeError "'<=' not supported between instances of 'int' and 'list'").
Proof. reflexivity. Qed.

(** ** The pseudo-labelling pass *)

Section PassFacts.
Context {F : Type} {FS : TensorScalar F} {Pix Sz : Type}.
Variable predict : batch_tensor Pix -> list (list (detection F)).

Local Notation "'mk_visit' chw" :=
  (fun x : Pix * list (detection F) * string =>
     ({| im_shape := chw; im_data := fst (fst x) |}, snd (fst x), snd x) : visit F Pix)
  (at level 10, chw at level 9).

(** The divisors of line 361 are the width and height of every image of
    the batch. *)
Lemma gn_of_image_shape (t : batch_tensor Pix) (index : nat) (im : image Pix) :
  bt_getitem t index = Ok im ->
  im_shape im = bt_chw t /\
  gn_of t = (snd (im_shape im), snd (fst (im_shape im)),
             snd (im_shape im), snd (fst (im_shape im))).
Proof.
  unfold bt_getitem. destruct (nth_error (bt_items t) index); [|discriminate].
  intros [= <-]. simpl. split; [reflexivity|].
  unfold gn_of, bt_shape. now destruct (bt_chw t) as [[c h] w].
Qed.

Lemma label_records_spec (c h w : Z) (im : image Pix) (pre : list (detection F)) :
  im_shape im = (c, h, w) ->
  label_records (w, h, w, h) pre = spec_records im pre.
Proof.
  intros E. unfold spec_records. rewrite E. reflexivity.
Qed.

Lemma label_images_visits (chw : Z * Z * Z) (gn : Z * Z * Z * Z)
  (pred : list (list (detection F))) :
  forall (ritems pitems : list Pix) (rpaths ppaths : list string)
         (img : list (image Pix)) (tgt : list (list (list F))) (Path : list string),
    List.length ppaths = List.length pitems ->
    List.length ritems = List.length pred ->
    List.length rpaths = List.length pred ->
    label_images {| bt_chw := chw; bt_items := pitems ++ ritems |} (ppaths ++ rpaths)
                 gn (List.length pitems) pred (img, tgt, Path)
    = Ok (img ++ map v_img
                   (filter has_detections
                      (map (mk_visit chw) (combine (combine ritems pred) rpaths))),
          tgt ++ map (fun v => label_records gn (v_dets v))
                   (filter has_detections
                      (map (mk_visit chw) (combine (combine ritems pred) rpaths))),
          Path ++ map v_path
                    (filter has_detections
                       (map (mk_visit chw) (combine (combine ritems pred) rpaths)))).
Proof.
  induction pred as [|pre pred IH]; intros ritems pitems rpaths ppaths img tgt Path Hp Hi Hr.
  - destruct ritems; [|discriminate]. simpl. now rewrite !app_nil_r.
  - destruct ritems as [|d ritems]; [discriminate|].
    destruct rpaths as [|p rpaths]; [discriminate|].
    simpl in Hi, Hr. injection Hi as Hi. injection Hr as Hr.
    assert (Hnext : forall acc,
      label_images {| bt_chw := chw; bt_items := pitems ++ d :: ritems |}
                   (ppaths ++ p :: rpaths) gn (S (List.length pitems)) pred acc
      = label_images {| bt_chw := chw; bt_items := (pitems ++ [d]) ++ ritems |}
                     ((ppaths ++ [p]) ++ rpaths) gn (List.length (pitems ++ [d])) pred acc).
    { intros acc. rewrite <- !app_assoc, length_app. simpl.
      now rewrite Nat.add_1_r. }
    assert (Hp' : List.length (ppaths ++ [p]) = List.length (pitems ++ [d])).
    { rewrite !length_app. simpl. lia. }
    assert (Hh : has_detections ({| im_shape := chw; im_data := d |}, pre, p)
                 = negb (Nat.eqb (List.length pre) 0)) by reflexivity.
    cbn [label_images combine map filter fst snd]. rewrite Hh.
    destruct (Nat.eqb (List.length pre) 0) eqn:E; cbn [negb].
    + rewrite Hnext. apply IH; assumption.
    + unfold bt_getitem, nth_path. cbn [bt_items bt_chw].
      rewrite nth_error_app2, Nat.sub_diag by lia.
      rewrite <- Hp, nth_error_app2, Nat.sub_diag by lia.
      cbn [nth_error bind]. rewrite Hp, Hnext, IH by assumption.
      cbn [map fst snd]. now rewrite <- !app_assoc.
Qed.

Lemma label_batches_visits (loader : list (batch Pix)) :
  forall (img : list (image Pix)) (tgt : list (list (list F))) (Path : list string),
    well_formed predict loader ->
    label_batches predict loader (img, tgt, Path)
    = Ok (img ++ map v_img (labelled_visits predict loader),
          tgt ++ map (fun v => spec_records (v_img v) (v_dets v))
                   (labelled_visits predict loader),
          Path ++ map v_path (labelled_visits predict loader)).
Proof.
  unfold labelled_visits.
  induction loader as [|b loader IH]; intros img tgt Path Hwf.
  - simpl. now rewrite !app_nil_r.
  - inversion Hwf as [|b' l' [Hpred Hpaths] Hrest]; subst.
    destruct b as [[[[c h] w] items] paths]. simpl in Hpred, Hpaths.
    set (b := {| b_imgs0 := {| bt_chw := (c, h, w); bt_items := items |};
                 b_path := paths |}).
    pose proof (label_images_visits (c, h, w) (w, h, w, h)
                  (predict {| bt_chw := (c, h, w); bt_items := items |})
                  items [] paths [] img tgt Path eq_refl
                  (eq_sym Hpred) (eq_trans Hpaths (eq_sym Hpred))) as Hb.
    change (map (mk_visit (c, h, w))
              (combine (combine items
                          (predict {| bt_chw := (c, h, w); bt_items := items |}))
                       paths))
      with (batch_visits predict b) in Hb.
    assert (Htgt :
      map (fun v => label_records (w, h, w, h) (v_dets v))
          (filter has_detections (batch_visits predict b))
      = map (fun v => spec_records (v_img v) (v_dets v))
            (filter has_detections (batch_visits predict b))).
    { apply map_ext_in. intros v Hv.
      apply filter_In in Hv. destruct Hv as [Hv _].
      apply in_map_iff in Hv. destruct Hv as (x & <- & _). reflexivity. }
    rewrite Htgt in Hb.
    cbn [label_batches flat_map].
    change (label_images (b_imgs0 b) (b_path b) (gn_of (b_imgs0 b)) 0
              (predict (b_imgs0 b)) (img, tgt, Path))
      with (label_images {| bt_chw := (c, h, w); bt_items := [] ++ items |}
              ([] ++ paths) (w, h, w, h) (List.length (@nil Pix))
              (predict {| bt_chw := (c, h, w); bt_items := items |})
              (img, tgt, Path)).
    rewrite Hb. cbn [bind]. rewrite IH by assumption.
    now rewrite filter_app, !map_app, !app_assoc.
Qed.

Lemma pseudo_label_pass_visits (loader : list (batch Pix)) :
  well_formed predict loader ->
  pseudo_label_pass (Sz := Sz) predict loader
  = Ok (semiDataset_init
          (map v_img (labelled_visits predict loader))
          (map (fun v => spec_records (v_img v) (v_dets v))
               (labelled_visits predict loader))
          (map v_path (labelled_visits predict loader))).
Proof.
  intros Hwf. unfold pseudo_label_pass.
  now rewrite (label_batches_visits loader [] [] [] Hwf).
Qed.

Lemma labelled_visits_nonempty (loader : list (batch Pix)) (v : visit F Pix) :
  In v (labelled_visits predict loader) -> v_dets v <> [].
Proof.
  unfold labelled_visits. intros Hv. apply filter_In in Hv.
  destruct Hv as [_ Hd]. unfold has_detections in Hd.
  intros E. simpl in E. rewrite E in Hd. discriminate.
Qed.

Lemma labelled_visits_bound (loader : list (batch Pix)) :
  (List.length (labelled_visits predict loader) <= images_processed loader)%nat.
Proof.
  unfold labelled_visits, images_processed.
  induction loader as [|b loader IH]; simpl; [lia|].
  rewrite filter_app, length_app.
  pose proof (filter_length_le has_detections (batch_visits predict b)) as H1.
  assert (H2 : (List.length (batch_visits predict b)
                <= List.length (bt_items (b_imgs0 b)))%nat).
  { unfold batch_visits. rewrite length_map, !length_combine. lia. }
  lia.
Qed.

(** C1. On a loader that hands one path per image, with a suppression
    routine that returns one detection set per image, the pass returns a
    container whose entries are, in order, the images with a non-empty
    detection set; the label-record set stored beside an image of shape
    [(c, h, w)] has, for each detection [[x1, y1, x2, y2, conf, cls]] of
    that image, the row
    [[0, cls, ((x1+x2)/2)/w, ((y1+y2)/2)/h, (x2-x1)/w, (y2-y1)/h]],
    where [h] and [w] are those of the image's own shape. *)
Theorem pseudo_label_records (loader : list (batch Pix)) :
  well_formed predict loader ->
  exists ds,
    pseudo_label_pass (Sz := Sz) predict loader = Ok ds /\
    imgs ds = map v_img (labelled_visits predict loader) /\
    path ds = map v_path (labelled_visits predict loader) /\
    target ds = map (fun v => map (spec_record (snd (fst (im_shape (v_img v))))
                                               (snd (im_shape (v_img v))))
                                  (v_dets v))
                    (labelled_visits predict loader) /\
    Forall2 (fun im rows =>
               exists pre, pre <> [] /\
                 rows = map (fun d =>
                   [fzero; d_cls d;
                    fdiv (fdiv (fadd (d_x1 d) (d_x2 d)) ftwo) (of_dim (snd (im_shape im)));
                    fdiv (fdiv (fadd (d_y1 d) (d_y2 d)) ftwo)
                         (of_dim (snd (fst (im_shape im))));
                    fdiv (fsub (d_x2 d) (d_x1 d)) (of_dim (snd (im_shape im)));
                    fdiv (fsub (d_y2 d) (d_y1 d)) (of_dim (snd (fst (im_shape im))))])
                  pre)
            (imgs ds) (target ds).
Proof.
  intros Hwf. eexists. split; [apply (pseudo_label_pass_visits loader Hwf)|].
  simpl.
  assert (Hrec : forall v : visit F Pix,
            spec_records (v_img v) (v_dets v)
            = map (spec_record (snd (fst (im_shape (v_img v))))
                               (snd (im_shape (v_img v)))) (v_dets v)).
  { intros [[[[[c h] w] px] pre] p]. reflexivity. }
  split; [reflexivity|]. split; [reflexivity|]. split.
  { apply map_ext. exact Hrec. }
  pose proof (labelled_visits_nonempty loader) as Hne.
  induction (labelled_visits predict loader) as [|v vs IH]; simpl; constructor.
  - exists (v_dets v). split; [apply Hne; now left|]. now rewrite Hrec.
  - apply IH. intros v' Hv'. apply Hne. now right.
Qed.

(** C10. Under the same conditions every label-record set stored in the
    container is non-empty, each of its rows has exactly 6 entries of which
    the first is 0; the three sequences have one entry per image with a
    non-empty detection set and none for the others, so the length of the
    container is at most the number of images processed. *)
Theorem pseudo_label_container_invariant (loader : list (batch Pix)) :
  well_formed predict loader ->
  exists ds,
    pseudo_label_pass (Sz := Sz) predict loader = Ok ds /\
    Forall (fun rows =>
              rows <> [] /\
              Forall (fun r => List.length r = 6%nat /\ nth_error r 0 = Some fzero) rows)
           (target ds) /\
    List.length (imgs ds) = List.length (labelled_visits predict loader) /\
    List.length (target ds) = List.length (labelled_visits predict loader) /\
    List.length (path ds) = List.length (labelled_visits predict loader) /\
    semiDataset_len ds <= Z.of_nat (images_processed loader).
Proof.
  intros Hwf. eexists. split; [apply (pseudo_label_pass_visits loader Hwf)|].
  unfold semiDataset_len. simpl. rewrite !length_map.
  split; [|split; [reflexivity|split; [reflexivity|split; [reflexivity|]]]].
  - apply Forall_forall. intros rows Hrows.
    apply in_map_iff in Hrows. destruct Hrows as (v & <- & Hv).
    apply labelled_visits_nonempty in Hv.
    destruct v as [[[[[c h] w] px] pre] p].
    unfold v_dets, v_img, spec_records in Hv |- *. simpl in Hv |- *. split.
    + destruct pre; [congruence | discriminate].
    + apply Forall_forall. intros r Hr. apply in_map_iff in Hr.
      destruct Hr as (d & <- & _). split; reflexivity.
  - apply Nat2Z.inj_le. apply labelled_visits_bound.
Qed.
End PassFacts.

Lemma pseudo_label_records_witness :
  exists ds,
    pseudo_label_pass (Sz := Z) one_box_predict two_image_loader = Ok ds /\
    imgs ds = [ {| im_shape := (3, 480, 640); im_data := 7%nat |} ] /\
    path ds = ["a.jpg"] /\
    target ds = [[[0; 1; (100 + 300) / 2 / inject_Z 640; (50 + 250) / 2 / inject_Z 480;
                   (300 - 100) / inject_Z 640; (250 - 50) / inject_Z 480]]]%Q.
Proof.
  assert (Hwf : well_formed one_box_predict two_image_loader).
  { constructor; [split; reflexivity | constructor]. }
  destruct (pseudo_label_records (Sz := Z) one_box_predict two_image_loader Hwf)
    as (ds & Hok & Hi & Hp & Ht & _).
  exists ds. split; [exact Hok|]. split; [exact Hi|]. split; [exact Hp | exact Ht].
Defined.

Lemma pseudo_label_container_invariant_witness :
  exists ds,
    pseudo_label_pass (Sz := Z) one_box_predict two_image_loader = Ok ds /\
    List.length (target ds) = 1%nat /\
    semiDataset_len ds <= 2.
Proof.
  assert (Hwf : well_formed one_box_predict two_image_loader).
  { constructor; [split; reflexivity | constructor]. }
  destruct (pseudo_label_container_invariant (Sz := Z) one_box_predict
              two_image_loader Hwf) as (ds & Hok & _ & _ & Ht & _ & Hlen).
  exists ds. split; [exact Hok|]. split; [exact Ht | exact Hlen].
Defined.

(* ================================================================== *)
(** * Further properties of the code *)
(* ================================================================== *)

(** ** The container: every index *)

Lemma py_getitem_cases {A : Type} (l : list A) (i : Z) :
  (- Z.of_nat (List.length l) <= i < Z.of_nat (List.length l) /\
   exists a,
     nth_error l (Z.to_nat (if i <? 0 then Z.of_nat (List.length l) + i else i)) = Some a /\
     py_getitem l i = Ok a) \/
  (~ (- Z.of_nat (List.length l) <= i < Z.of_nat (List.length l)) /\
   py_getitem l i = Err (IndexError "list index out of range")).
Proof.
  unfold py_getitem.
  set (n := Z.of_nat (List.length l)).
  destruct (i <? 0) eqn:Hneg;
    [apply Z.ltb_lt in Hneg | apply Z.ltb_ge in Hneg];
    match goal with
    | |- context [(0 <=? ?j) && (?j <? n)] =>
        destruct ((0 <=? j) && (j <? n)) eqn:Hr
    end.
  1, 3: apply andb_true_iff in Hr; destruct Hr as [H1 H2];
        apply Z.leb_le in H1; apply Z.ltb_lt in H2; left; split; [lia|];
        match goal with
        | |- context [nth_error ?l0 ?k] =>
            destruct (nth_error l0 k) as [a|] eqn:Hn;
            [exists a; now split | apply nth_error_None in Hn; lia]
        end.
  1, 2: apply andb_false_iff in Hr; right; split; [|reflexivity];
        destruct Hr as [Hr | Hr];
        [apply Z.leb_gt in Hr | apply Z.ltb_ge in Hr]; lia.
Qed.

Section ContainerIndexing.
Context {I T P S : Type}.
Variables (imgs0 : list I) (target0 : list T) (path0 : list P).

Let d : semiDataset I T P S := semiDataset_init imgs0 target0 path0.
Let in_range (n : nat) (i : Z) : Prop := - Z.of_nat n <= i < Z.of_nat n.

(** X1. Indexed access returns a tuple exactly when the index, negative or
    not, is within the bounds of each of the three sequences; in every
    other case it raises [IndexError], and it raises nothing else. *)
Theorem semiDataset_getitem_succeeds_iff (i : Z) :
  ((exists r, semiDataset_getitem d i = Ok r) <->
   in_range (List.length imgs0) i /\ in_range (List.length target0) i /\
   in_range (List.length path0) i) /\
  ((exists r, semiDataset_getitem d i = Ok r) \/
   semiDataset_getitem d i = Err (IndexError "list index out of range")).
Proof.
  unfold semiDataset_getitem, d, in_range. simpl.
  destruct (py_getitem_cases imgs0 i) as [[Hi (im & _ & Ei)] | [Hi Ei]];
    rewrite Ei; simpl.
  2:{ split; [|now right]. split; [intros [r Hr]; discriminate | tauto]. }
  destruct (py_getitem_cases target0 i) as [[Ht (t & _ & Et)] | [Ht Et]];
    rewrite Et; simpl.
  2:{ split; [|now right]. split; [intros [r Hr]; discriminate | tauto]. }
  destruct (py_getitem_cases path0 i) as [[Hp (p & _ & Ep)] | [Hp Ep]];
    rewrite Ep; simpl.
  2:{ split; [|now right]. split; [intros [r Hr]; discriminate | tauto]. }
  split; [|left; eauto]. split; [tauto | eauto].
Qed.

(** X2. A negative index counts from the end of each sequence separately: the
    tuple returned at [i < 0] holds the entries at [len(imgs)+i],
    [len(target)+i] and [len(path)+i], which are entries of different
    samples when the three lengths differ. *)
Theorem semiDataset_negative_index (i : Z) :
  i < 0 ->
  - Z.of_nat (List.length imgs0) <= i ->
  - Z.of_nat (List.length target0) <= i ->
  - Z.of_nat (List.length path0) <= i ->
  exists im t p,
    nth_error imgs0 (Z.to_nat (Z.of_nat (List.length imgs0) + i)) = Some im /\
    nth_error target0 (Z.to_nat (Z.of_nat (List.length target0) + i)) = Some t /\
    nth_error path0 (Z.to_nat (Z.of_nat (List.length path0) + i)) = Some p /\
    semiDataset_getitem d i = Ok (im, t, p, None).
Proof.
  intros Hneg Hi Ht Hp.
  assert (Hb : (i <? 0) = true) by now apply Z.ltb_lt.
  unfold semiDataset_getitem, d. simpl.
  destruct (py_getitem_cases imgs0 i) as [[_ (im & Ni & Ei)] | [Hn _]]; [|lia].
  destruct (py_getitem_cases target0 i) as [[_ (t & Nt & Et)] | [Hn _]]; [|lia].
  destruct (py_getitem_cases path0 i) as [[_ (p & Np & Ep)] | [Hn _]]; [|lia].
  rewrite Hb in Ni, Nt, Np. exists im, t, p.
  rewrite Ei, Et, Ep. simpl. auto.
Qed.
End ContainerIndexing.

Lemma semiDataset_negative_index_witness :
  semiDataset_getitem
    (semiDataset_init (S := Z) ["a"; "b"; "c"] [10; 20] [true; false; true]) (-1)
  = Ok ("c", 20, true, None).
Proof.
  destruct (semiDataset_negative_index (S := Z) ["a"; "b"; "c"] [10; 20]
              [true; false; true] (-1)) as (im & t & p & Hi & Ht & Hp & Hg);
    try (simpl; lia).
  simpl in Hi, Ht, Hp. injection Hi as <-. injection Ht as <-. injection Hp as <-.
  exact Hg.
Defined.

(** ** Configuration and label validation together *)

(** X3. In single-class mode the assertion of line 84 cannot fail: the step
    returns class count 1 and exactly one name, the descriptor's own when
    it has exactly one and ["item"] otherwise; the descriptor's [nc] is
    not looked at. *)
Theorem configure_single_cls_never_fails (data : string) (d : data_dict) :
  exists name,
    configure true data d = Ok (1, [name]) /\
    (dd_names d = [name] \/ (name = "item" /\ List.length (dd_names d) <> 1%nat)).
Proof.
  assert (Hn : exists name,
             resolve_names true d = [name] /\
             (dd_names d = [name] \/
              (name = "item" /\ List.length (dd_names d) <> 1%nat))).
  { unfold resolve_names. cbn [andb].
    destruct (Z.of_nat (List.length (dd_names d)) =? 1) eqn:H; cbn [negb].
    - apply Z.eqb_eq in H.
      destruct (dd_names d) as [|n0 [|n1 rest]]; simpl in H; try lia.
      exists n0. auto.
    - apply Z.eqb_neq in H. exists "item". split; [reflexivity|].
      right. split; [reflexivity | lia]. }
  destruct Hn as (name & Hnames & Hor). exists name. split; [|exact Hor].
  unfold configure. now rewrite Hnames.
Qed.

Lemma check_label_classes_Ok (labels : list (list label_row)) (nc m : Z)
  (data : string) :
  check_label_classes labels nc data = Ok m ->
  m < nc /\ forall r, In r (List.concat labels) -> l_cls r <= m.
Proof.
  intros Hok.
  destruct (max_label_class labels) as [m'|e] eqn:Hm.
  2:{ unfold check_label_classes in Hok. rewrite Hm in Hok. discriminate. }
  destruct (check_label_classes_cases labels nc m' data Hm) as [[Hlt E] | [_ E]];
    rewrite E in Hok; [|discriminate].
  injection Hok as <-. split; [exact Hlt|].
  intros r Hr. apply (in_map l_cls) in Hr.
  unfold max_label_class, np_concatenate in Hm.
  destruct labels as [|a rest]; [discriminate|]. cbn [bind] in Hm.
  destruct (map l_cls (List.concat (a :: rest))) as [|c cs]; [discriminate|].
  injection Hm as <-.
  destruct (fold_left_max_ge cs c) as [H1 H2].
  destruct Hr as [<- | Hr]; [exact H1|].
  rewrite Forall_forall in H2. now apply H2.
Qed.

(** X4. When the configuration step and the label check both pass, every
    label row of the training set with a non-negative class has a name:
    its class is a valid position of the resolved name list. *)
Theorem checked_classes_have_names (single_cls : bool) (data : string)
  (d : data_dict) (labels : list (list label_row)) (nc m : Z) (names : list string) :
  configure single_cls data d = Ok (nc, names) ->
  check_label_classes labels nc data = Ok m ->
  forall r, In r (List.concat labels) -> 0 <= l_cls r ->
            exists name, nth_error names (Z.to_nat (l_cls r)) = Some name.
Proof.
  intros Hc Hl r Hr Hpos.
  destruct (configure_cases single_cls data d) as [[Hlen E] | [_ E]];
    rewrite E in Hc; [|discriminate].
  injection Hc as <- <-.
  destruct (check_label_classes_Ok _ _ _ _ Hl) as [Hm Hub].
  specialize (Hub r Hr).
  destruct (nth_error (resolve_names single_cls d) (Z.to_nat (l_cls r))) as [name|] eqn:Hn.
  - now exists name.
  - apply nth_error_None in Hn. lia.
Qed.

Lemma checked_classes_have_names_witness :
  exists name,
    nth_error ["cat"; "dog"; "owl"] (Z.to_nat 2) = Some name.
Proof.
  apply (checked_classes_have_names false "d.yaml"
           (MkDataDict 3 ["cat"; "dog"; "owl"] "train" "val")
           [[MkLabelRow 0 (0, 0, 1, 1)%Q]; []; [MkLabelRow 2 (0, 0, 1, 1)%Q]]
           3 2 ["cat"; "dog"; "owl"] eq_refl eq_refl
           (MkLabelRow 2 (0, 0, 1, 1)%Q)).
  - simpl. auto.
  - simpl. lia.
Defined.

(** X5. A training set without a single label row never reaches the
    assertion: the check raises [ValueError], whatever the class count,
    and [ValueError] is raised in no other case. *)
Theorem label_check_empty_dataset (labels : list (list label_row)) (nc : Z)
  (data : string) :
  (exists s, check_label_classes labels nc data = Err (ValueError s))
  <-> List.concat labels = [].
Proof.
  split.
  - intros [s Hs].
    destruct (List.concat labels) as [|r rs] eqn:Hc; [reflexivity|].
    assert (Hcol : map l_cls (List.concat labels) <> []).
    { rewrite Hc. discriminate. }
    destruct (np_max_spec _ Hcol) as (m & Hmax & _).
    assert (Hm : max_label_class labels = Ok m).
    { unfold max_label_class, np_concatenate.
      destruct labels as [|a rest]; [discriminate|]. exact Hmax. }
    destruct (check_label_classes_cases labels nc m data Hm) as [[_ E] | [_ E]];
      rewrite E in Hs; discriminate.
  - intros Hc. unfold check_label_classes, max_label_class, np_concatenate.
    destruct labels as [|a rest].
    + eexists. reflexivity.
    + cbn [bind]. rewrite Hc. simpl. eexists. reflexivity.
Qed.

(** ** Resume: when it fails and what it leaves *)

Section ResumeOutcome.
Context {O E : Type}.
Variables (l : train_locals) (optimizer : O) (ema : option (E * Z))
          (results_file : option string).


(** X7. A resume that goes through with a budget of at least one epoch leaves
    the start epoch within the budget: an extended budget leaves exactly
    [epochs - 1] epochs to run, a sufficient one is kept.  A checkpoint
    without optimizer state restores neither the optimizer nor the best
    fitness, which stays 0. *)
Theorem resume_leaves_budget (opt_resume : bool) (ck : checkpoint O E) :
  opt_resume = false \/ 0 < ck_epoch ck + 1 ->
  1 <= loc_epochs l ->
  exists st,
    resume true opt_resume l ck optimizer ema results_file = Ok st /\
    rs_start_epoch st <= rs_epochs st /\
    (loc_epochs l < rs_start_epoch st ->
     rs_epochs st - rs_start_epoch st = loc_epochs l - 1) /\
    (rs_start_epoch st <= loc_epochs l -> rs_epochs st = loc_epochs l) /\
    (ck_optimizer ck = None ->
     rs_optimizer st = optimizer /\ rs_best_fitness st = 0%Q).
Proof.
  intros Hgo Hbudget.
  destruct (resume_epochs l optimizer ema results_file opt_resume ck Hgo)
    as (st & Hst & Hstart & Hext & Hkeep).
  exists st. split; [exact Hst|]. rewrite Hstart.
  split; [|split; [|split]].
  - destruct (Z_lt_le_dec (loc_epochs l) (ck_epoch ck + 1)) as [H | H].
    + rewrite (Hext H). lia.
    + rewrite (Hkeep H). lia.
  - intros H. rewrite (Hext H). lia.
  - exact Hkeep.
  - intros Hnone. unfold resume in Hst. rewrite Hnone in Hst.
    match type of Hst with
    | bind ?a _ = _ => destruct a; [|discriminate]
    end.
    simpl in Hst. injection Hst as <-. now split.
Qed.
End ResumeOutcome.

Lemma resume_leaves_budget_witness :
  exists st,
    resume (O := nat) (E := nat) true true sample_locals
      {| ck_epoch := 349; ck_best_fitness := 1 # 2; ck_optimizer := None;
         ck_ema := None; ck_updates := 0; ck_training_results := None |}
      0%nat None None
    = Ok st /\
    rs_start_epoch st <= rs_epochs st /\
    rs_epochs st - rs_start_epoch st = 299.
Proof.
  destruct (resume_leaves_budget (O := nat) (E := nat) sample_locals 0%nat None None true
              {| ck_epoch := 349; ck_best_fitness := 1 # 2; ck_optimizer := None;
                 ck_ema := None; ck_updates := 0; ck_training_results := None |})
    as (st & Hst & Hle & Hext & _).
  - right. simpl. lia.
  - simpl. lia.
  - exists st. split; [exact Hst|]. split; [exact Hle|].
    assert (E : rs_start_epoch st = 350).
    { vm_compute in Hst. injection Hst as <-. reflexivity. }
    rewrite Hext; [reflexivity|]. rewrite E. simpl. lia.
Defined.

(** ** Parameter groups: composition and the standard case *)

(** X8. Walking two lists of modules one after the other gives, group by
    group, the concatenation of what each list gives alone; group 0 has
    exactly one entry per [BatchNorm2d] module. *)
Theorem param_groups_app (mods1 mods2 : list module) :
  pg0 (param_groups (mods1 ++ mods2))
  = pg0 (param_groups mods1) ++ pg0 (param_groups mods2) /\
  pg1 (param_groups (mods1 ++ mods2))
  = pg1 (param_groups mods1) ++ pg1 (param_groups mods2) /\
  pg2 (param_groups (mods1 ++ mods2))
  = pg2 (param_groups mods1) ++ pg2 (param_groups mods2) /\
  List.length (pg0 (param_groups mods1)) = List.length (filter is_BatchNorm2d mods1).
Proof.
  destruct (param_groups_flat_map (mods1 ++ mods2)) as (-> & -> & ->).
  destruct (param_groups_flat_map mods1) as (-> & -> & ->).
  destruct (param_groups_flat_map mods2) as (-> & -> & ->).
  rewrite !flat_map_app. repeat split.
  induction mods1 as [|[w b | c attrs] mods IH]; simpl; [reflexivity | | exact IH].
  now rewrite IH.
Qed.

Lemma NoDup_app_disjoint {A : Type} (l1 l2 : list A) (a : A) :
  NoDup (l1 ++ l2) -> In a l1 -> In a l2 -> False.
Proof.
  induction l1 as [|x l1 IH]; simpl; intros Hnd H1 H2; [contradiction|].
  inversion Hnd as [|y l Hx Hrest]; subst.
  destruct H1 as [-> | H1].
  - apply Hx. apply in_or_app. now right.
  - now apply IH.
Qed.

Lemma In_flat_some_list {A : Type} (l : list (option A)) (a : A) :
  In a (flat_map some_list l) <-> In (Some a) l.
Proof.
  rewrite in_flat_map. split.
  - intros (o & Ho & Ha). apply In_some_list in Ha. now subst.
  - intros H. exists (Some a). split; [exact H | now left].
Qed.

(** X9. For a model whose normalization layers are all [BatchNorm2d], whose
    Parameters are all stored as the [weight] or the [bias] of a module,
    and where no Parameter is stored twice, the three groups are a strict
    three-way disjoint cover of the parameters: biases in group 2 only,
    normalization weights in group 0 only, the other weights in group 1
    only. *)
Theorem standard_model_strict_cover (mods : list module) :
  (forall v, In v mods -> is_normalization v = true -> is_BatchNorm2d v = true) ->
  (forall p, In p (model_parameters mods) -> In p (weight_bias_slots mods)) ->
  NoDup (weight_bias_slots mods) ->
  strict_three_way_cover mods.
Proof.
  intros Hnorm Hslots Hnd.
  pose proof (group_params_slots mods) as Hperm.
  assert (Hg : NoDup (group_params (param_groups mods))).
  { apply (Permutation_NoDup (Permutation_sym Hperm) Hnd). }
  destruct (param_groups_flat_map mods) as (E0 & E1 & E2).
  assert (H2 : forall p, is_bias mods p -> In p (pg2 (param_groups mods))).
  { intros p (v & Hv & Hb). rewrite E2. apply in_flat_map. exists v.
    split; [exact Hv|]. now apply In_some_list. }
  assert (H0 : forall p, is_normalization_weight mods p ->
                         In (Some p) (pg0 (param_groups mods))).
  { intros p (v & Hv & Hn & Hw). rewrite E0. apply in_flat_map. exists v.
    split; [exact Hv|]. specialize (Hnorm v Hv Hn).
    destruct v as [w b | c attrs]; [|discriminate]. simpl in Hw. subst w. now left. }
  assert (H1 : forall p, is_other_weight mods p -> In p (pg1 (param_groups mods))).
  { intros p (v & Hv & Hn & Hw). rewrite E1. apply in_flat_map. exists v.
    split; [exact Hv|]. destruct v as [w b | c attrs]; [discriminate|].
    simpl in Hw |- *. now apply In_some_list. }
  unfold group_params in Hg.
  assert (D01 : forall p, In (Some p) (pg0 (param_groups mods)) ->
                          In p (pg1 (param_groups mods)) -> False).
  { intros p Ha Hb. apply In_flat_some_list in Ha.
    apply (NoDup_app_disjoint _ _ p Hg Ha). apply in_or_app. now left. }
  assert (D02 : forall p, In (Some p) (pg0 (param_groups mods)) ->
                          In p (pg2 (param_groups mods)) -> False).
  { intros p Ha Hb. apply In_flat_some_list in Ha.
    apply (NoDup_app_disjoint _ _ p Hg Ha). apply in_or_app. now right. }
  assert (D12 : forall p, In p (pg1 (param_groups mods)) ->
                          In p (pg2 (param_groups mods)) -> False).
  { intros p Ha Hb. apply NoDup_app_remove_l in Hg.
    apply (NoDup_app_disjoint _ _ p Hg Ha Hb). }
  unfold strict_three_way_cover. cbv zeta.
  split; [|split; [|split; [|split]]].
  - intros p Hp. specialize (H2 p Hp). unfold only_in_group2.
    split; [|split]; eauto.
  - intros p Hp. specialize (H0 p Hp). unfold only_in_group0.
    split; [|split]; eauto.
  - intros p Hp. specialize (H1 p Hp). unfold only_in_group1.
    split; [|split]; eauto.
  - exact Hg.
  - intros p. split.
    + intros Hp. apply (Permutation_in _ Hperm) in Hp.
      unfold weight_bias_slots in Hp. apply in_flat_map in Hp.
      destruct Hp as (v & Hv & H). apply in_app_or in H.
      unfold model_parameters. apply in_flat_map. exists v. split; [exact Hv|].
      apply module_slot_is_parameter.
      destruct H as [H | H]; apply In_some_list in H; auto.
    + intros Hp. apply (Permutation_in _ (Permutation_sym Hperm)).
      now apply Hslots.
Qed.

Lemma standard_model_strict_cover_witness : strict_three_way_cover conv_bn_model.
Proof.
  apply standard_model_strict_cover.
  - intros v Hv Hn. simpl in Hv.
    destruct Hv as [<- | [<- | [<- | []]]]; simpl in Hn |- *;
      first [reflexivity | discriminate].
  - intros p Hp. vm_compute in Hp |- *. tauto.
  - vm_compute. repeat constructor; simpl; intuition discriminate.
Defined.

(** ** The pseudo-labelling pass: every run *)

Lemma skipn_nth_error {A : Type} (l : list A) (n : nat) :
  skipn n l = match nth_error l n with
              | Some a => a :: skipn (S n) l
              | None => []
              end.
Proof.
  revert l. induction n as [|n IH]; intros [|x l]; simpl; try reflexivity.
  rewrite IH. destruct (nth_error l n); reflexivity.
Qed.

Lemma skipn_S_nil {A : Type} (l : list A) (n : nat) :
  nth_error l n = None -> skipn (S n) l = [].
Proof.
  intros H. apply nth_error_None in H. apply skipn_all2. lia.
Qed.

Section PassEveryRun.
Context {F : Type} {FS : TensorScalar F} {Pix Sz : Type}.
Variable predict : batch_tensor Pix -> list (list (detection F)).

Lemma visits_from_nil (chw : Z * Z * Z) (index : nat) (items : list Pix)
  (paths : list string) :
  visits_from (F := F) chw index items [] paths = [].
Proof. unfold visits_from. now rewrite combine_nil. Qed.

Lemma visits_from_cons (chw : Z * Z * Z) (index : nat) (items : list Pix)
  (pre : list (detection F)) (pred : list (list (detection F))) (paths : list string) :
  visits_from chw index items (pre :: pred) paths
  = match nth_error items index, nth_error paths index with
    | Some d, Some p =>
        ({| im_shape := chw; im_data := d |}, pre, p)
        :: visits_from chw (S index) items pred paths
    | _, _ => []
    end.
Proof.
  unfold visits_from.
  rewrite (skipn_nth_error items index), (skipn_nth_error paths index).
  destruct (nth_error items index), (nth_error paths index); reflexivity.
Qed.

Lemma visits_from_exhausted (chw : Z * Z * Z) (index : nat) (items : list Pix)
  (pred : list (list (detection F))) (paths : list string) :
  nth_error items index = None \/ nth_error paths index = None ->
  visits_from chw (S index) items pred paths = [].
Proof.
  unfold visits_from. intros [H | H]; rewrite (skipn_S_nil _ _ H).
  - reflexivity.
  - now rewrite combine_nil.
Qed.

Lemma batch_visits_from (b : batch Pix) :
  batch_visits predict b
  = visits_from (bt_chw (b_imgs0 b)) 0 (bt_items (b_imgs0 b)) (predict (b_imgs0 b))
                (b_path b).
Proof. reflexivity. Qed.

(** The inner loop, whatever the lengths: it goes through when every
    non-empty detection set has an image and a path. *)
Lemma label_images_safe (chw : Z * Z * Z) (items : list Pix) (paths : list string)
  (gn : Z * Z * Z * Z) (pred : list (list (detection F))) :
  forall (index : nat) (img : list (image Pix)) (tgt : list (list (list F)))
         (Path : list string),
    (forall k pre, nth_error pred k = Some pre -> pre <> [] ->
                   (index + k < List.length items)%nat /\
                   (index + k < List.length paths)%nat) ->
    label_images {| bt_chw := chw; bt_items := items |} paths gn index pred
                 (img, tgt, Path)
    = Ok (img ++ map v_img (filter has_detections (visits_from chw index items pred paths)),
          tgt ++ map (fun v => label_records gn (v_dets v))
                   (filter has_detections (visits_from chw index items pred paths)),
          Path ++ map v_path
                    (filter has_detections (visits_from chw index items pred paths))).
Proof.
  induction pred as [|pre pred IH]; intros index img tgt Path Hsafe.
  - rewrite visits_from_nil. simpl. now rewrite !app_nil_r.
  - assert (Hnext : forall k pre', nth_error pred k = Some pre' -> pre' <> [] ->
                      (S index + k < List.length items)%nat /\
                      (S index + k < List.length paths)%nat).
    { intros k pre' Hk Hne. specialize (Hsafe (S k) pre' Hk Hne). lia. }
    rewrite visits_from_cons. cbn [label_images].
    destruct (Nat.eqb (List.length pre) 0) eqn:E.
    + rewrite (IH (S index) img tgt Path Hnext).
      destruct (nth_error items index) as [d|] eqn:Hd.
      2:{ rewrite visits_from_exhausted by auto. reflexivity. }
      destruct (nth_error paths index) as [p|] eqn:Hp.
      2:{ rewrite visits_from_exhausted by auto. reflexivity. }
      assert (Hh : has_detections ({| im_shape := chw; im_data := d |}, pre, p)
                   = negb (Nat.eqb (List.length pre) 0)) by reflexivity.
      cbn [filter]. rewrite Hh, E. reflexivity.
    + assert (Hne : pre <> []).
      { intros ->. discriminate. }
      destruct (Hsafe 0%nat pre eq_refl Hne) as [Hi Hp]. rewrite Nat.add_0_r in Hi, Hp.
      destruct (nth_error items index) as [d|] eqn:Hd;
        [|apply nth_error_None in Hd; lia].
      destruct (nth_error paths index) as [p|] eqn:Hpp;
        [|apply nth_error_None in Hpp; lia].
      unfold bt_getitem, nth_path. cbn [bt_items bt_chw]. rewrite Hd, Hpp.
      cbn [bind]. rewrite (IH (S index) _ _ _ Hnext).
      assert (Hh : has_detections ({| im_shape := chw; im_data := d |}, pre, p)
                   = negb (Nat.eqb (List.length pre) 0)) by reflexivity.
      cbn [filter]. rewrite Hh, E. cbn [negb map].
      unfold v_img at 2, v_dets at 2, v_path at 2. cbn [fst snd].
      now rewrite <- !app_assoc.
Qed.

Lemma label_images_Ok (t : batch_tensor Pix) (paths : list string)
  (gn : Z * Z * Z * Z) (pred : list (list (detection F))) :
  forall (index : nat) (acc r : collected F Pix),
    label_images t paths gn index pred acc = Ok r ->
    forall k pre, nth_error pred k = Some pre -> pre <> [] ->
                  (index + k < List.length (bt_items t))%nat /\
                  (index + k < List.length paths)%nat.
Proof.
  induction pred as [|pre pred IH]; intros index acc r Hok k pre' Hk Hne.
  - destruct k; discriminate.
  - cbn [label_images] in Hok.
    destruct (Nat.eqb (List.length pre) 0) eqn:E.
    + destruct k as [|k].
      * injection Hk as <-. destruct pre; [congruence | discriminate].
      * specialize (IH (S index) acc r Hok k pre' Hk Hne). lia.
    + destruct acc as [[img tgt] Path].
      unfold bt_getitem, nth_path in Hok.
      destruct (nth_error (bt_items t) index) as [d|] eqn:Hd; [|discriminate].
      cbn [bind] in Hok.
      destruct (nth_error paths index) as [p|] eqn:Hp; [|discriminate].
      cbn [bind] in Hok.
      destruct k as [|k].
      * rewrite Nat.add_0_r. split; apply nth_error_Some; congruence.
      * specialize (IH (S index) _ r Hok k pre' Hk Hne). lia.
Qed.

Lemma label_batches_safe (loader : list (batch Pix)) :
  forall (img : list (image Pix)) (tgt : list (list (list F))) (Path : list string),
    Forall (batch_safe predict) loader ->
    label_batches predict loader (img, tgt, Path)
    = Ok (img ++ map v_img (labelled_visits predict loader),
          tgt ++ map (fun v => spec_records (v_img v) (v_dets v))
                   (labelled_visits predict loader),
          Path ++ map v_path (labelled_visits predict loader)).
Proof.
  unfold labelled_visits.
  induction loader as [|b loader IH]; intros img tgt Path Hsafe.
  - simpl. now rewrite !app_nil_r.
  - inversion Hsafe as [|b' l' Hb Hrest]; subst.
    cbn [label_batches flat_map].
    rewrite batch_visits_from.
    destruct b as [[[[c h] w] items] paths]. cbn [b_imgs0 b_path bt_chw bt_items] in *.
    change (gn_of {| bt_chw := (c, h, w); bt_items := items |}) with (w, h, w, h).
    rewrite (label_images_safe (c, h, w) items paths (w, h, w, h)
               (predict {| bt_chw := (c, h, w); bt_items := items |}) 0 img tgt Path Hb).
    assert (Htgt :
      forall vs : list (visit F Pix),
        (forall v, In v vs -> im_shape (v_img v) = (c, h, w)) ->
        map (fun v => label_records (w, h, w, h) (v_dets v)) vs
        = map (fun v => spec_records (v_img v) (v_dets v)) vs).
    { intros vs Hvs. apply map_ext_in. intros v Hv.
      apply (label_records_spec c h w). now apply Hvs. }
    rewrite Htgt.
    2:{ intros v Hv. apply filter_In in Hv. destruct Hv as [Hv _].
        unfold visits_from in Hv. apply in_map_iff in Hv.
        destruct Hv as (x & <- & _). reflexivity. }
    cbn [bind]. rewrite IH by assumption.
    now rewrite filter_app, !map_app, !app_assoc.
Qed.

Lemma label_batches_Ok (loader : list (batch Pix)) :
  forall (acc r : collected F Pix),
    label_batches predict loader acc = Ok r -> Forall (batch_safe predict) loader.
Proof.
  induction loader as [|b loader IH]; intros acc r Hok; [constructor|].
  cbn [label_batches] in Hok.
  destruct (label_images (b_imgs0 b) (b_path b) (gn_of (b_imgs0 b)) 0
              (predict (b_imgs0 b)) acc) as [acc1|e] eqn:Hb; [|discriminate].
  cbn [bind] in Hok. constructor.
  - intros k pre Hk Hne.
    apply (label_images_Ok _ _ _ _ _ _ _ Hb k pre Hk Hne).
  - apply (IH acc1 r Hok).
Qed.

Lemma label_images_Err (t : batch_tensor Pix) (paths : list string)
  (gn : Z * Z * Z * Z) (pred : list (list (detection F))) :
  forall (index : nat) (acc : collected F Pix) (e : exn),
    label_images t paths gn index pred acc = Err e -> exists s, e = IndexError s.
Proof.
  induction pred as [|pre pred IH]; intros index acc e Herr; [discriminate|].
  cbn [label_images] in Herr.
  destruct (Nat.eqb (List.length pre) 0); [apply (IH _ _ _ Herr)|].
  destruct acc as [[img tgt] Path]. unfold bt_getitem, nth_path in Herr.
  destruct (nth_error (bt_items t) index) as [d|]; cbn [bind] in Herr.
  2:{ injection Herr as <-. eauto. }
  destruct (nth_error paths index) as [p|]; cbn [bind] in Herr.
  2:{ injection Herr as <-. eauto. }
  apply (IH _ _ _ Herr).
Qed.

Lemma label_batches_Err (loader : list (batch Pix)) :
  forall (acc : collected F Pix) (e : exn),
    label_batches predict loader acc = Err e -> exists s, e = IndexError s.
Proof.
  induction loader as [|b loader IH]; intros acc e Herr; [discriminate|].
  cbn [label_batches] in Herr.
  destruct (label_images (b_imgs0 b) (b_path b) (gn_of (b_imgs0 b)) 0
              (predict (b_imgs0 b)) acc) as [acc1|e1] eqn:Hb; cbn [bind] in Herr.
  - apply (IH _ _ Herr).
  - injection Herr as <-. apply (label_images_Err _ _ _ _ _ _ _ Hb).
Qed.

Lemma pseudo_label_pass_Ok_safe (loader : list (batch Pix))
  (ds : semiDataset (image Pix) (list (list F)) string Sz) :
  pseudo_label_pass predict loader = Ok ds -> Forall (batch_safe predict) loader.
Proof.
  intros Hok. unfold pseudo_label_pass in Hok.
  destruct (label_batches predict loader ([], [], [])) as [r|e] eqn:Hb; [|discriminate].
  apply (label_batches_Ok loader _ _ Hb).
Qed.

Lemma pseudo_label_pass_safe_run (loader : list (batch Pix)) :
  Forall (batch_safe predict) loader ->
  pseudo_label_pass (Sz := Sz) predict loader
  = Ok (semiDataset_init
          (map v_img (labelled_visits predict loader))
          (map (fun v => spec_records (v_img v) (v_dets v))
               (labelled_visits predict loader))
          (map v_path (labelled_visits predict loader))).
Proof.
  intros H. unfold pseudo_label_pass.
  now rewrite (label_batches_safe loader [] [] [] H).
Qed.

Lemma pseudo_label_pass_Ok_visits (loader : list (batch Pix))
  (ds : semiDataset (image Pix) (list (list F)) string Sz) :
  pseudo_label_pass predict loader = Ok ds ->
  ds = semiDataset_init
         (map v_img (labelled_visits predict loader))
         (map (fun v => spec_records (v_img v) (v_dets v))
              (labelled_visits predict loader))
         (map v_path (labelled_visits predict loader)).
Proof.
  intros Hok.
  pose proof (pseudo_label_pass_safe_run loader (pseudo_label_pass_Ok_safe loader ds Hok)).
  congruence.
Qed.

(** X10. The pass returns a container exactly when, in every batch, each
    non-empty detection set sits at a position that has an image and a
    path; detection sets missing at the end of a batch, or empty ones
    beyond it, raise nothing, the images without a set are left out.  The
    container returned is always the one of the labelled visits. *)
Theorem pseudo_label_pass_succeeds_iff (loader : list (batch Pix)) :
  ((exists ds, pseudo_label_pass (Sz := Sz) predict loader = Ok ds)
   <-> Forall (batch_safe predict) loader) /\
  (forall ds,
      pseudo_label_pass (Sz := Sz) predict loader = Ok ds ->
      ds = semiDataset_init
             (map v_img (labelled_visits predict loader))
             (map (fun v => spec_records (v_img v) (v_dets v))
                  (labelled_visits predict loader))
             (map v_path (labelled_visits predict loader))) /\
  (forall e,
      pseudo_label_pass (Sz := Sz) predict loader = Err e -> exists s, e = IndexError s).
Proof.
  split; [split|split].
  - intros [ds Hok]. now apply (pseudo_label_pass_Ok_safe loader ds).
  - intros H. eexists. apply (pseudo_label_pass_safe_run loader H).
  - apply pseudo_label_pass_Ok_visits.
  - intros e Herr. unfold pseudo_label_pass in Herr.
    destruct (label_batches predict loader ([], [], [])) as [[[i t] p]|e1] eqn:Hb;
      [discriminate|].
    injection Herr as <-. apply (label_batches_Err loader _ _ Hb).
Qed.
End PassEveryRun.

Lemma pseudo_label_pass_succeeds_iff_witness :
  (exists ds, pseudo_label_pass (Sz := Z) first_only_predict two_image_loader = Ok ds /\
              semiDataset_len ds = 1) /\
  ~ (exists ds, pseudo_label_pass (Sz := Z) one_too_many_predict two_image_loader = Ok ds).
Proof.
  split.
  - destruct (pseudo_label_pass_succeeds_iff (Sz := Z) first_only_predict two_image_loader)
      as ([_ Hrun] & Hds & _).
    destruct Hrun as [ds Hok].
    { constructor; [|constructor]. intros k pre Hk Hne.
      destruct k as [|[|k]]; simpl in Hk; try discriminate. simpl. lia. }
    exists ds. split; [exact Hok|]. rewrite (Hds ds Hok). reflexivity.
  - intros H.
    apply (proj1 (proj1 (pseudo_label_pass_succeeds_iff (Sz := Z) one_too_many_predict
                           two_image_loader))) in H.
    inversion H as [|b rest Hb Hrest]; subst.
    destruct (Hb 2%nat [one_box] eq_refl) as [Hlt _]; [discriminate|].
    simpl in Hlt. lia.
Defined.

Section PassComposition.
Context {F : Type} {FS : TensorScalar F} {Pix Sz : Type}.
Variable predict : batch_tensor Pix -> list (list (detection F)).

Lemma labelled_visits_app (l1 l2 : list (batch Pix)) :
  labelled_visits predict (l1 ++ l2)
  = labelled_visits predict l1 ++ labelled_visits predict l2.
Proof.
  unfold labelled_visits. now rewrite flat_map_app, filter_app.
Qed.

Lemma label_batches_app (l1 l2 : list (batch Pix)) (acc : collected F Pix) :
  label_batches predict (l1 ++ l2) acc
  = (acc1 <- label_batches predict l1 acc ;; label_batches predict l2 acc1).
Proof.
  revert acc. induction l1 as [|b l1 IH]; intros acc; [reflexivity|].
  cbn [app label_batches].
  destruct (label_images (b_imgs0 b) (b_path b) (gn_of (b_imgs0 b)) 0
              (predict (b_imgs0 b)) acc) as [acc1|e]; cbn [bind]; [apply IH | reflexivity].
Qed.

(** X11. Labelling one loader after another gives the container of the first
    followed, sequence by sequence, by the container of the second; and an
    exception raised on the first loader is the exception of the whole. *)
Theorem pseudo_label_pass_app (l1 l2 : list (batch Pix)) :
  (forall d1 d2,
      pseudo_label_pass (Sz := Sz) predict l1 = Ok d1 ->
      pseudo_label_pass (Sz := Sz) predict l2 = Ok d2 ->
      pseudo_label_pass (Sz := Sz) predict (l1 ++ l2)
      = Ok (semiDataset_init (imgs d1 ++ imgs d2) (target d1 ++ target d2)
                             (path d1 ++ path d2))) /\
  (forall e,
      pseudo_label_pass (Sz := Sz) predict l1 = Err e ->
      pseudo_label_pass (Sz := Sz) predict (l1 ++ l2) = Err e).
Proof.
  split.
  - intros d1 d2 H1 H2.
    rewrite (pseudo_label_pass_Ok_visits predict l1 d1 H1).
    rewrite (pseudo_label_pass_Ok_visits predict l2 d2 H2).
    rewrite pseudo_label_pass_safe_run.
    + simpl. now rewrite labelled_visits_app, !map_app.
    + apply Forall_app. split.
      * apply (pseudo_label_pass_Ok_safe predict l1 d1 H1).
      * apply (pseudo_label_pass_Ok_safe predict l2 d2 H2).
  - intros e H. unfold pseudo_label_pass in H |- *. rewrite label_batches_app.
    destruct (label_batches predict l1 ([], [], [])) as [[[i t] p]|e'];
      [discriminate | exact H].
Qed.

(** X12. Every position of the container the pass returns can be read: access
    at [0 <= i < len] returns the image, the label-record set and the path
    of the [i]-th image that has detections, with the empty [size]. *)
Theorem pseudo_label_container_access (loader : list (batch Pix))
  (ds : semiDataset (image Pix) (list (list F)) string Sz) (i : Z) :
  pseudo_label_pass predict loader = Ok ds ->
  0 <= i < semiDataset_len ds ->
  exists v,
    nth_error (labelled_visits predict loader) (Z.to_nat i) = Some v /\
    semiDataset_getitem ds i
    = Ok (v_img v, spec_records (v_img v) (v_dets v), v_path v, None).
Proof.
  intros Hok Hi.
  rewrite (pseudo_label_pass_Ok_visits predict loader ds Hok) in Hi |- *.
  unfold semiDataset_len in Hi. simpl in Hi.
  rewrite length_map in Hi.
  destruct (nth_error (labelled_visits predict loader) (Z.to_nat i)) as [v|] eqn:Hv.
  2:{ apply nth_error_None in Hv. lia. }
  exists v. split; [reflexivity|].
  unfold semiDataset_getitem. simpl.
  rewrite (py_getitem_nth _ i (v_img v)) by (try lia; now apply map_nth_error).
  cbn [bind].
  rewrite (py_getitem_nth _ i (spec_records (v_img v) (v_dets v)))
    by (try lia; now apply (map_nth_error
                              (fun v => spec_records (v_img v) (v_dets v)))).
  cbn [bind].
  rewrite (py_getitem_nth _ i (v_path v)) by (try lia; now apply map_nth_error).
  reflexivity.
Qed.
End PassComposition.

Lemma pseudo_label_pass_app_witness :
  exists ds,
    pseudo_label_pass (Sz := Z) one_box_predict (two_image_loader ++ two_image_loader)
    = Ok ds /\
    semiDataset_len ds = 2 /\ path ds = ["a.jpg"; "a.jpg"].
Proof.
  destruct (pseudo_label_pass_app (Sz := Z) one_box_predict two_image_loader
              two_image_loader) as [Happ _].
  eexists. split; [apply Happ; reflexivity|]. split; reflexivity.
Defined.

Lemma pseudo_label_container_access_witness :
  exists v,
    nth_error (labelled_visits one_box_predict two_image_loader) 0 = Some v /\
    v_path v = "a.jpg".
Proof.
  destruct (pseudo_label_container_access (Sz := Z) one_box_predict two_image_loader
              (semiDataset_init
                 [ {| im_shape := (3, 480, 640); im_data := 7%nat |} ]
                 [spec_records {| im_shape := (3, 480, 640); im_data := 7%nat |} [one_box]]
                 ["a.jpg"]) 0 eq_refl) as (v & Hv & _).
  - vm_compute. split; congruence.
  - exists v. split; [exact Hv|].
    vm_compute in Hv. injection Hv as <-. reflexivity.
Defined.

(** ** Label records over the rationals *)

Lemma Qdiv_unit_interval (a b : Q) :
  (0 < b -> 0 <= a -> a <= b -> 0 <= a / b /\ a / b <= 1)%Q.
Proof.
  intros Hb Ha Hab. split.
  - apply Qle_shift_div_l; [exact Hb | lra].
  - apply Qle_shift_div_r; [exact Hb | lra].
Qed.


Lemma Qmid_bounds (x y b : Q) :
  (0 <= x -> x <= y -> y <= b -> 0 <= (x + y) / 2 /\ (x + y) / 2 <= b)%Q.
Proof.
  intros H0 H1 H2. split.
  - apply Qle_shift_div_l; [reflexivity | lra].
  - apply Qle_shift_div_r; [reflexivity | lra].
Qed.

(** X13. A detection whose box lies inside the image, on an image of positive
    width and height, gives a record whose four box entries lie between 0
    and 1. *)
Theorem label_record_in_unit_square (h w : Z) (d : detection Q) :
  0 < w -> 0 < h ->
  (0 <= d_x1 d /\ d_x1 d <= d_x2 d /\ d_x2 d <= inject_Z w)%Q ->
  (0 <= d_y1 d /\ d_y1 d <= d_y2 d /\ d_y2 d <= inject_Z h)%Q ->
  exists cx cy bw bh,
    label_record (w, h, w, h) d = [0%Q; d_cls d; cx; cy; bw; bh] /\
    (0 <= cx /\ cx <= 1)%Q /\ (0 <= cy /\ cy <= 1)%Q /\
    (0 <= bw /\ bw <= 1)%Q /\ (0 <= bh /\ bh <= 1)%Q.
Proof.
  intros Hw Hh (Hx0 & Hx1 & Hx2) (Hy0 & Hy1 & Hy2).
  assert (HW : (0 < inject_Z w)%Q).
  { unfold Qlt. simpl. lia. }
  assert (HH : (0 < inject_Z h)%Q).
  { unfold Qlt. simpl. lia. }
  do 4 eexists. split; [reflexivity|].
  cbn [fadd fsub fdiv ftwo of_dim Q_TensorScalar].
  destruct (Qmid_bounds _ _ _ Hx0 Hx1 Hx2) as [Mx0 Mx1].
  destruct (Qmid_bounds _ _ _ Hy0 Hy1 Hy2) as [My0 My1].
  split; [|split; [|split]]; apply Qdiv_unit_interval; try assumption; lra.
Qed.

Lemma label_record_in_unit_square_witness :
  exists cx cy bw bh,
    label_record (640, 480, 640, 480) one_box = [0%Q; 1%Q; cx; cy; bw; bh] /\
    (0 <= cx /\ cx <= 1)%Q /\ (0 <= cy /\ cy <= 1)%Q /\
    (0 <= bw /\ bw <= 1)%Q /\ (0 <= bh /\ bh <= 1)%Q.
Proof.
  apply (label_record_in_unit_square 480 640 one_box); try lia;
    unfold Qle; simpl; lia.
Defined.



(** ** Gradient accumulation and weight decay *)

Lemma py_truediv_nonzero (a b : Z) :
  b <> 0 -> py_truediv (PInt a) (PInt b) = Ok (PFloat (inject_Z a / inject_Z b)%Q).
Proof.
  intros Hb. unfold py_truediv. simpl.
  destruct (Qeq_bool (inject_Z b) 0) eqn:E; [|reflexivity].
  apply Qeq_bool_iff in E. unfold Qeq in E. simpl in E. lia.
Qed.

Lemma py_truediv_zero (a : Z) :
  py_truediv (PInt a) (PInt 0) = Err (ZeroDivisionError "division by zero").
Proof. reflexivity. Qed.

Lemma py_round_le_half (x : Q) : (x <= 1 # 2)%Q -> py_round x <= 0.
Proof.
  intros Hx. unfold py_round.
  pose proof (Qfloor_resp_le _ _ Hx) as Hf.
  change (Qfloor (1 # 2)) with 0 in Hf.
  destruct (Z.eq_dec (Qfloor x) 0) as [E | E].
  - rewrite E.
    destruct (Qcompare (x - inject_Z 0) (1 # 2)) eqn:C; simpl; try lia.
    apply Qgt_alt in C. change (inject_Z 0) with 0%Q in C. lra.
  - destruct (Qcompare (x - inject_Z (Qfloor x)) (1 # 2));
      [destruct (Z.even (Qfloor x))| |]; lia.
Qed.

Lemma py_round_integer (x : Q) (k : Z) : (x == inject_Z k)%Q -> py_round x = k.
Proof.
  intros Hx. unfold py_round.
  rewrite (Qfloor_comp _ _ Hx), Qfloor_Z.
  assert (C : Qcompare (x - inject_Z k) (1 # 2) = Lt).
  { apply (proj1 (Qlt_alt _ _)). lra. }
  now rewrite C.
Qed.

(** X15. The number of accumulated batches is never below 1: line 110 raises
    [ZeroDivisionError] exactly for a total batch size of 0, and returns
    at least 1 otherwise, 1 itself for every total batch size that is
    negative or at least 128. *)
Theorem accumulate_at_least_one (total_batch_size : Z) :
  (accumulate_steps 64 total_batch_size = Err (ZeroDivisionError "division by zero")
   <-> total_batch_size = 0) /\
  (total_batch_size <> 0 ->
   exists a, accumulate_steps 64 total_batch_size = Ok a /\ 1 <= a) /\
  (total_batch_size < 0 \/ 128 <= total_batch_size ->
   accumulate_steps 64 total_batch_size = Ok 1).
Proof.
  split; [|split].
  - split.
    + intros H. destruct (Z.eq_dec total_batch_size 0) as [E | E]; [exact E|].
      unfold accumulate_steps in H. rewrite (py_truediv_nonzero _ _ E) in H.
      discriminate.
    + intros ->. reflexivity.
  - intros Hne. unfold accumulate_steps. rewrite (py_truediv_nonzero _ _ Hne).
    cbn [bind]. eexists. split; [reflexivity | lia].
  - intros Hrange. unfold accumulate_steps.
    rewrite py_truediv_nonzero by lia. cbn [bind num_Q].
    assert (H0 : py_round (inject_Z 64 / inject_Z total_batch_size) <= 0).
    { apply py_round_le_half.
      destruct Hrange as [Hneg | Hbig].
      - destruct total_batch_size as [|p|p]; try lia. unfold Qle. simpl. lia.
      - apply Qle_shift_div_r.
        + unfold Qlt. simpl. lia.
        + destruct total_batch_size as [|p|p]; try lia. unfold Qle. simpl. lia. }
    now rewrite Z.max_r by lia.
Qed.

(** X16. When the total batch size divides the nominal 64, line 110 gives
    exactly [64 / total_batch_size] and line 111 leaves the weight decay
    as it was. *)
Theorem weight_decay_unchanged_for_divisors (weight_decay : Q) (total_batch_size : Z) :
  0 < total_batch_size ->
  (total_batch_size | 64) ->
  exists wd,
    scale_weight_decay weight_decay total_batch_size = Ok (64 / total_batch_size, wd) /\
    (wd == weight_decay)%Q.
Proof.
  intros Hpos [k Hk].
  assert (Hk1 : 1 <= k) by nia.
  assert (Hdiv : 64 / total_batch_size = k).
  { rewrite Hk. apply Z.div_mul. lia. }
  assert (Hq : (inject_Z 64 / inject_Z total_batch_size == inject_Z k)%Q).
  { rewrite Hk, inject_Z_mult. field. unfold Qeq. simpl. lia. }
  unfold scale_weight_decay, accumulate_steps.
  rewrite py_truediv_nonzero by lia. cbn [bind num_Q].
  rewrite (py_round_integer _ _ Hq), Z.max_l by lia.
  rewrite py_truediv_nonzero by lia. cbn [bind num_Q].
  rewrite Hdiv. eexists. split; [reflexivity|].
  replace (total_batch_size * k) with 64 by lia.
  setoid_replace (inject_Z 64 / inject_Z 64)%Q with 1%Q by reflexivity.
  ring.
Qed.

Lemma weight_decay_unchanged_for_divisors_witness :
  exists wd,
    scale_weight_decay (5 # 10000) 16 = Ok (4, wd) /\ (wd == 5 # 10000)%Q.
Proof.
  apply (weight_decay_unchanged_for_divisors (5 # 10000) 16).
  - lia.
  - exists 4. reflexivity.
Defined.

(** X17. For a total batch size from 1 to 128 the batch the optimizer sees,
    [total_batch_size * accumulate], is within half a total batch of the
    nominal 64. *)
Theorem accumulated_batch_near_nominal (total_batch_size : Z) :
  1 <= total_batch_size <= 128 ->
  exists a,
    accumulate_steps 64 total_batch_size = Ok a /\
    2 * Z.abs (total_batch_size * a - 64) <= total_batch_size.
Proof.
  intros Hrange.
  assert (Hall : forallb (fun t => match accumulate_steps 64 t with
                                   | Ok a => 2 * Z.abs (t * a - 64) <=? t
                                   | Err _ => false
                                   end) (int_range 1 129) = true)
    by (vm_compute; reflexivity).
  rewrite forallb_forall in Hall.
  specialize (Hall total_batch_size (proj2 (int_range_spec 1 129 total_batch_size)
                                           ltac:(lia))).
  destruct (accumulate_steps 64 total_batch_size) as [a|e]; [|discriminate].
  exists a. split; [reflexivity|]. now apply Z.leb_le.
Qed.

Lemma accumulated_batch_near_nominal_witness :
  exists a, accumulate_steps 64 40 = Ok a /\ 2 * Z.abs (40 * a - 64) <= 40.
Proof.
  apply (accumulated_batch_near_nominal 40). lia.
Defined.

(** ** The linear schedule *)

Lemma inject_Z_nonzero (z : Z) : z <> 0 -> ~ (inject_Z z == 0)%Q.
Proof. intros Hz H. unfold Qeq in H. simpl in H. lia. Qed.

(** X18. With an epoch budget of 1 the lambda of line 134 divides by zero at
    every epoch.  With any other budget it is, over the rationals, 1 at
    epoch 0 and [lrf] at the last epoch [epochs - 1], and for a budget
    above 1 and [lrf < 1] it decreases from each epoch to the next. *)
Theorem lf_linear_shape (lrf : Q) (epochs : Z) :
  (epochs = 1 ->
   forall x, lf_linear lrf epochs x = Err (ZeroDivisionError "division by zero")) /\
  (epochs <> 1 ->
   exists v0 v1,
     lf_linear lrf epochs 0 = Ok v0 /\ (v0 == 1)%Q /\
     lf_linear lrf epochs (epochs - 1) = Ok v1 /\ (v1 == lrf)%Q) /\
  (1 < epochs -> (lrf < 1)%Q ->
   forall x, exists v v',
     lf_linear lrf epochs x = Ok v /\ lf_linear lrf epochs (x + 1) = Ok v' /\
     (v' < v)%Q).
Proof.
  split; [|split].
  - intros -> x. reflexivity.
  - intros Hne.
    assert (Hd : epochs - 1 <> 0) by lia.
    pose proof (inject_Z_nonzero _ Hd) as Hq.
    unfold lf_linear. rewrite !py_truediv_nonzero by exact Hd. cbn [bind num_Q].
    do 2 eexists. split; [reflexivity|]. split; [|split; [reflexivity|]].
    + change (inject_Z 0) with 0%Q. field. exact Hq.
    + field. exact Hq.
  - intros Hgt Hlrf x.
    assert (Hd : epochs - 1 <> 0) by lia.
    unfold lf_linear. rewrite !py_truediv_nonzero by exact Hd. cbn [bind num_Q].
    do 2 eexists. split; [reflexivity|]. split; [reflexivity|].
    assert (Hpos : (0 < inject_Z (epochs - 1))%Q).
    { unfold Qlt. simpl. lia. }
    assert (Hstep : (inject_Z x / inject_Z (epochs - 1)
                     < inject_Z (x + 1) / inject_Z (epochs - 1))%Q).
    { unfold Qdiv. apply Qmult_lt_compat_r.
      - now apply Qinv_lt_0_compat.
      - rewrite <- Zlt_Qlt. lia. }
    set (a := (inject_Z x / inject_Z (epochs - 1))%Q) in *.
    set (b := (inject_Z (x + 1) / inject_Z (epochs - 1))%Q) in *.
    assert (H1 : (0 < 1 - lrf)%Q) by lra.
    assert (H2 : ((1 - b) * (1 - lrf) < (1 - a) * (1 - lrf))%Q).
    { apply Qmult_lt_compat_r; [exact H1 | lra]. }
    lra.
Qed.

(** ** Warmup interpolation *)





(** ** The batch counter *)

(** X20. The batch counter of line 263 determines the epoch and the position
    of the batch in it: with [nb > 0] batches per epoch and [0 <= i < nb],
    the quotient of [ni] by [nb] is the epoch and the remainder is [i], so
    two batches of a run never share a counter. *)
Theorem global_iteration_decodes (nb epoch i : Z) :
  0 < nb -> 0 <= i < nb ->
  global_iteration nb epoch i / nb = epoch /\
  global_iteration nb epoch i mod nb = i /\
  (forall epoch' i',
      0 <= i' < nb ->
      global_iteration nb epoch' i' = global_iteration nb epoch i ->
      epoch' = epoch /\ i' = i).
Proof.
  intros Hnb Hi. unfold global_iteration.
  assert (Hdiv : forall e k, 0 <= k < nb -> (k + nb * e) / nb = e /\ (k + nb * e) mod nb = k).
  { intros e k Hk. rewrite (Z.mul_comm nb e). split.
    - rewrite Z.div_add by lia. rewrite Z.div_small by lia. lia.
    - rewrite Z.mod_add by lia. apply Z.mod_small. lia. }
  destruct (Hdiv epoch i Hi) as [Hq Hr]. split; [exact Hq|]. split; [exact Hr|].
  intros epoch' i' Hi' Heq.
  destruct (Hdiv epoch' i' Hi') as [Hq' Hr'].
  rewrite Heq in Hq', Hr'. split; congruence.
Qed.

Lemma global_iteration_decodes_witness :
  global_iteration 100 3 42 / 100 = 3 /\ global_iteration 100 3 42 mod 100 = 42.
Proof.
  destruct (global_iteration_decodes 100 3 42 ltac:(lia) ltac:(lia)) as (Hq & Hr & _).
  split; assumption.
Defined.

(** ** Fitness and checkpoint at the end of an epoch *)

Lemma save_enabled_iff (nosave evolve final_epoch : bool) :
  negb nosave || (final_epoch && negb evolve) = true
  <-> nosave = false \/ (final_epoch = true /\ evolve = false).
Proof. destruct nosave, final_epoch, evolve; simpl; intuition congruence. Qed.

Section EpochEndFacts.
Context {M Em Os : Type}.
Variables (model : M) (ema_model : Em) (optimizer : Os).

Let enabled (nosave evolve final_epoch : bool) : Prop :=
  nosave = false \/ (final_epoch = true /\ evolve = false).

(** X21. At the end of an epoch the best fitness becomes the larger of the old
    best and the epoch's fitness.  [best.pt] is written exactly when
    saving is enabled and the epoch's fitness is at least the old best, a
    tie included; the checkpoint written carries the epoch, the epoch's
    fitness as best fitness and the text of the results file.  Nothing
    else is written.  When saving is enabled an exception of the read of
    the results file is the outcome; when it is not, the file is not
    read. *)
Theorem epoch_end_best_checkpoint (nosave evolve final_epoch : bool) (epoch updates : Z)
  (fi best_fitness : Q) (text : string) :
  (exists best1 written,
      epoch_end nosave evolve final_epoch epoch fi best_fitness (Ok text)
                model ema_model updates optimizer = Ok (best1, written) /\
      (best_fitness <= best1)%Q /\ (fi <= best1)%Q /\
      (best1 = best_fitness \/ best1 = fi) /\
      ((exists c, written = Some c) <->
       enabled nosave evolve final_epoch /\ (best_fitness <= fi)%Q) /\
      (forall c, written = Some c ->
                 sv_epoch c = epoch /\ (sv_best_fitness c == fi)%Q /\
                 sv_training_results c = text)) /\
  (forall e,
      enabled nosave evolve final_epoch ->
      epoch_end nosave evolve final_epoch epoch fi best_fitness (Err e)
                model ema_model updates optimizer = Err e) /\
  (forall r,
      ~ enabled nosave evolve final_epoch ->
      exists best1,
        epoch_end nosave evolve final_epoch epoch fi best_fitness r
                  model ema_model updates optimizer = Ok (best1, None)).
Proof.
  unfold enabled. split; [|split].
  - set (best1 := if negb (Qle_bool fi best_fitness) then fi else best_fitness).
    assert (Hb : (best_fitness <= best1)%Q /\ (fi <= best1)%Q /\
                 (best1 = best_fitness \/ best1 = fi) /\
                 (Qeq_bool best1 fi = true <-> (best_fitness <= fi)%Q)).
    { unfold best1. destruct (Qle_bool fi best_fitness) eqn:Hle; cbn [negb].
      - apply Qle_bool_iff in Hle. rewrite Qeq_bool_iff.
        repeat split; try lra; auto.
      - assert (Hlt : (best_fitness < fi)%Q).
        { apply Qnot_le_lt. intros H. apply Qle_bool_iff in H. congruence. }
        rewrite Qeq_bool_iff. repeat split; try lra; auto. }
    destruct Hb as (H1 & H2 & H3 & H4).
    unfold epoch_end. fold best1.
    destruct (negb nosave || (final_epoch && negb evolve)) eqn:Hs; cbn [bind].
    + apply save_enabled_iff in Hs.
      destruct (Qeq_bool best1 fi) eqn:Heq.
      * do 2 eexists. split; [reflexivity|].
        split; [exact H1|]. split; [exact H2|]. split; [exact H3|]. split.
        -- split; [intros _; split; [exact Hs | now apply H4] | intros _; eauto].
        -- intros c [= <-]. simpl. split; [reflexivity|].
           split; [now apply Qeq_bool_iff | reflexivity].
      * do 2 eexists. split; [reflexivity|].
        split; [exact H1|]. split; [exact H2|]. split; [exact H3|]. split.
        -- split; [intros [c Hc]; discriminate|].
           intros [_ Hle]. apply H4 in Hle. discriminate.
        -- intros c Hc. discriminate.
    + do 2 eexists. split; [reflexivity|].
      split; [exact H1|]. split; [exact H2|]. split; [exact H3|]. split.
      * split; [intros [c Hc]; discriminate|].
        intros [He _]. apply save_enabled_iff in He. congruence.
      * intros c Hc. discriminate.
  - intros e He. apply save_enabled_iff in He. unfold epoch_end. now rewrite He.
  - intros r He. unfold epoch_end.
    destruct (negb nosave || (final_epoch && negb evolve)) eqn:Hs.
    + exfalso. apply He. now apply save_enabled_iff.
    + eexists. reflexivity.
Qed.
End EpochEndFacts.

(** ** Wrapping the model *)


(** ** Local names *)

(** X23. Reading a local of [train] that holds no value yet fails, whether or
    not the module has a name spelt the same; so the first statement of
    [train], which reads [Path] to build the save directory, raises
    [UnboundLocalError]: line 353 rebinds [Path], which makes it a local of
    the whole function, and [pathlib.Path] of the module is out of reach. *)
Theorem train_first_statement_unbound :
  (forall bound name,
      is_local name = true -> mem_name name bound = false ->
      load_name bound name = UnboundLocalError name) /\
  In (353, "Path") train_assigned /\
  In "Path" module_names /\
  load_names train_parameters line_60_reads = UnboundLocalError "Path".
Proof.
  split; [|split; [|split]].
  - intros bound name Hl Hb. unfold load_name. now rewrite Hl, Hb.
  - unfold train_assigned. repeat (first [now left | right]).
  - unfold module_names. repeat (first [now left | right]).
  - reflexivity.
Qed.

(** X24. The image sizes and the grid size are bound only in the block of a
    pretrained checkpoint: when the weights are not a [.pt] file the call
    that builds the training loader raises [UnboundLocalError] on [imgsz];
    with a checkpoint every name the call reads holds a value. *)
Theorem loader_call_needs_checkpoint :
  load_names (bound_at_line_186 false) loader_call_reads = UnboundLocalError "imgsz" /\
  load_names (bound_at_line_186 true) loader_call_reads = Loaded /\
  (forall name, In name (bound_at_line_186 true) -> is_local name = true).
Proof.
  split; [reflexivity|]. split; [reflexivity|].
  intros name Hin. unfold bound_at_line_186 in Hin. cbn [app train_parameters] in Hin.
  repeat (destruct Hin as [<- | Hin]; [reflexivity|]). contradiction.
Qed.

(** ** The mean loss and the optimizer step *)




